(** * Inventory reader of the S3 block adapter (block/s3/inventory_reader.go)

    A shallow embedding of the manifest-file readers: the ORC adapter
    that turns the stripe-and-row cursor of the decoding library into batch
    reads, the Parquet adapter, and the factory that owns the cache of
    materialised local files.

    Go values are embedded as follows: [int64] as [Z] with its wrap-around,
    [string] as [string], a nilable [error] as [option error], the map
    [orcFilesByKey] as a [gmap] whose entries are written through (the Go map
    holds pointers, so every field update of an entry is visible in the map),
    panics as the [Panicked] outcome, and the calls that leave the process
    (S3, the file system, the decoding libraries) as events appended to a
    trace, their results being supplied by an [External] record. Calls of
    the logger are left out. *)

From stdpp Require Import base gmap strings list.

(** ** Results of Go calls *)

(** Error values: the package's [ErrUnsupportedInventoryFormat] (declared
    elsewhere in the package), those made by [errors.New] and
    [fmt.Errorf("...%w", err)], and those the collaborators return. *)
Inductive error : Type :=
| ErrUnsupportedInventoryFormat
| errors_New (text : string)
| fmt_Errorf_w (text : string) (wrapped : error)
| external_error (text : string).

Inductive outcome (A : Type) : Type :=
| Returned (a : A)
| Panicked (msg : string).
Arguments Returned {A} a.
Arguments Panicked {A} msg.

(** ** 64-bit signed integers *)

Definition wrap64 (z : Z) : Z := ((z + 2 ^ 63) mod 2 ^ 64 - 2 ^ 63)%Z.

(** ** The ORC decoding library, as far as the adapter uses it *)

Module orc.

(** Modelled from the spec: the values [Cursor.Row] hands out as
    [interface{}]; the ORC library is an external collaborator. *)
Inductive Value : Type :=
| VString (s : string)
| VInt64 (z : Z)
| VTime (unix : Z)
| VBool (b : bool)
| VNil.

(** Modelled from the spec: a record, as the slice [Cursor.Row] returns. *)
Definition RowData : Type := list Value.

(** Modelled from the spec: the content of a local ORC file, a sequence of
    stripes (row-groups) of records, and the record count that the file's
    own metadata declares. Rows carry the columns chosen by [Select]. *)
Record File : Type := mkFile {
  stripes : list (list RowData);
  numberOfRows : Z
}.

(** Modelled from the spec: the decoder [orc.Open] returns. *)
Record Reader : Type := mkReader {
  name : string;
  file : File
}.

(** Modelled from the spec: a cursor exposing stripe-oriented, one record
    at a time iteration. [stream] holds the records of the prepared stripe
    that were not delivered yet, [nextStripes] the stripes not prepared
    yet, [nextVal] the record delivered last. *)
Record Cursor : Type := mkCursor {
  stream : list RowData;
  nextStripes : list (list RowData);
  nextVal : RowData
}.

(** Modelled from the spec: [Reader.Select], a cursor before its first
    stripe. *)
Definition Select (r : Reader) : Cursor :=
  {| stream := []; nextStripes := stripes (file r); nextVal := [] |}.

(** Modelled from the spec: [Cursor.Next], true when another record of the
    prepared stripe is available. *)
Definition Next (c : Cursor) : bool * Cursor :=
  match stream c with
  | [] => (false, c)
  | v :: s => (true, {| stream := s; nextStripes := nextStripes c; nextVal := v |})
  end.

(** Modelled from the spec: [Cursor.Stripes], prepares the next stripe for
    reading and drops what was left of the previous one; false when no
    stripe remains, and the iteration is over then: what was left of the
    previous stripe is dropped as well. *)
Definition Stripes (c : Cursor) : bool * Cursor :=
  match nextStripes c with
  | [] => (false, {| stream := []; nextStripes := []; nextVal := nextVal c |})
  | s :: ss => (true, {| stream := s; nextStripes := ss; nextVal := nextVal c |})
  end.

(** Modelled from the spec: [Cursor.Row], the record delivered last. *)
Definition Row (c : Cursor) : RowData := nextVal c.

(** Modelled from the spec: [Reader.NumRows], the count declared by the
    file's metadata. *)
Definition NumRows (r : Reader) : Z := numberOfRows (file r).

(** Records the cursor has still to deliver, in file order. *)
Definition pending (c : Cursor) : list RowData :=
  stream c ++ concat (nextStripes c).

(** The records of a file, in file order. *)
Definition rows (f : File) : list RowData := concat (stripes f).

(** A file whose metadata agrees with its content. *)
Definition consistent (f : File) : Prop :=
  numberOfRows f = Z.of_nat (length (rows f)).

End orc.

(** ** The uniform output record *)

(** Modelled from the spec: the record type is declared elsewhere in the
    package; [Size] and [LastModified] are pointers to [int64]. *)
Record InventoryObject : Type := mkInventoryObject {
  Bucket : string;
  Key : string;
  Size : option Z;
  LastModified : option Z
}.

(** [rowData[i].(T)] panics when the row is too short or the value is not a
    [T]. *)
Definition inventoryObjectFromOrc (rowData : orc.RowData) : outcome InventoryObject :=
  match rowData !! 0, rowData !! 1, rowData !! 2, rowData !! 3 with
  | Some (orc.VString b), Some (orc.VString k), Some (orc.VInt64 s), Some (orc.VTime t) =>
      Returned {| Bucket := b; Key := k; Size := Some s; LastModified := Some t |}
  | _, _, _, _ => Panicked "interface conversion"
  end.

(** ** The ORC adapter *)

Module OrcManifestFileReader.
Record t : Type := mk {
  reader : orc.Reader;
  c : orc.Cursor;
  key : string
}.
Definition with_c (r : t) (c' : orc.Cursor) : t :=
  {| reader := reader r; c := c'; key := key r |}.
End OrcManifestFileReader.

(** How the [for] loop of [Read] is left. *)
Inductive loop_exit : Type :=
| loop_break (c : orc.Cursor) (res : list InventoryObject)
| loop_return_nil (c : orc.Cursor)
| loop_panic (msg : string)
| loop_fuel.

Fixpoint Read_loop (fuel : nat) (c : orc.Cursor) (res : list InventoryObject)
    (num : nat) : loop_exit :=
  match fuel with
  | O => loop_fuel
  | S fuel =>
      let append (c : orc.Cursor) :=
        match inventoryObjectFromOrc (orc.Row c) with
        | Panicked msg => loop_panic msg
        | Returned o =>
            let res := res ++ [o] in
            if decide (length res = num) then loop_break c res
            else Read_loop fuel c res num
        end in
      let '(ok, c) := orc.Next c in
      if ok then append c
      else
        let '(ok, c) := orc.Stripes c in
        if negb ok then loop_return_nil c
        else
          let '(ok, c) := orc.Next c in
          if negb ok then loop_return_nil c
          else append c
  end.

(** Every turn of the loop that does not leave it consumes a record. *)
Definition rows_left (c : orc.Cursor) : nat := length (orc.pending c).

(** [Read r dst]: the reader afterwards, the caller's slice afterwards and
    the error returned. [None] stands for a loop that outlives its fuel. *)
Definition Read (r : OrcManifestFileReader.t) (dst : list InventoryObject)
    : option (outcome (OrcManifestFileReader.t * list InventoryObject * option error)) :=
  let num := length dst in
  match Read_loop (S (rows_left (OrcManifestFileReader.c r))) (OrcManifestFileReader.c r) [] num with
  | loop_break c res => Some (Returned (OrcManifestFileReader.with_c r c, res, None))
  | loop_return_nil c => Some (Returned (OrcManifestFileReader.with_c r c, dst, None))
  | loop_panic msg => Some (Panicked msg)
  | loop_fuel => None
  end.

Definition GetNumRows (r : OrcManifestFileReader.t) : Z :=
  wrap64 (orc.NumRows (OrcManifestFileReader.reader r)).

(** How the inner loop of [SkipRows] is left. *)
Inductive skip_exit : Type :=
| skip_return_nil (c : orc.Cursor)
| skip_stripe_done (c : orc.Cursor) (skipped : Z)
| skip_fuel.

Fixpoint SkipRows_rows (fuel : nat) (c : orc.Cursor) (skipped i : Z) : skip_exit :=
  match fuel with
  | O => skip_fuel
  | S fuel =>
      let '(ok, c) := orc.Next c in
      if ok then
        let _ := orc.Row c in
        let skipped := wrap64 (skipped + 1) in
        if decide (skipped = i) then skip_return_nil c
        else SkipRows_rows fuel c skipped i
      else skip_stripe_done c skipped
  end.

Fixpoint SkipRows_stripes (fuel : nat) (c : orc.Cursor) (skipped i : Z)
    : option (orc.Cursor * option error) :=
  match fuel with
  | O => None
  | S fuel =>
      let '(ok, c) := orc.Stripes c in
      if ok then
        match SkipRows_rows (S (length (orc.stream c))) c skipped i with
        | skip_return_nil c => Some (c, None)
        | skip_stripe_done c skipped => SkipRows_stripes fuel c skipped i
        | skip_fuel => None
        end
      else Some (c, Some (errors_New "no more rows to skip"))
  end.

Definition SkipRows (r : OrcManifestFileReader.t) (i : Z)
    : option (OrcManifestFileReader.t * option error) :=
  if decide (i = 0%Z) then Some (r, None)
  else
    let c := OrcManifestFileReader.c r in
    match SkipRows_stripes (S (length (orc.nextStripes c))) c 0 i with
    | Some (c, err) => Some (OrcManifestFileReader.with_c r c, err)
    | None => None
    end.

(** ** The Parquet decoding library, as far as the adapter uses it *)

Module parquet.

(** Modelled from the spec: the remote-reading decoder; [PFile] names the
    S3 object its stream handle was opened for. *)
Record ParquetReader : Type := mkParquetReader {
  PFileBucket : string;
  PFileKey : string
}.

End parquet.

Module ParquetManifestFileReader.
Record t : Type := mk {
  ParquetReader : parquet.ParquetReader
}.
End ParquetManifestFileReader.

Inductive ManifestFileReader : Type :=
| OrcManifestFileReaderOf (r : OrcManifestFileReader.t)
| ParquetManifestFileReaderOf (p : ParquetManifestFileReader.t).

(** ** The world outside the process *)

(** Calls that leave the process, in the order they are made. *)
Inductive Event : Type :=
| ioutil_TempFile (key : string)
| DownloadWithContext (bucket key : string) (dest : string)
| orc_Open (name : string)
| orc_Cursor_Close
| orc_Reader_Close (name : string)
| os_Remove (name : string)
| NewS3FileReaderWithClient (bucket key : string)
| NewParquetReader (bucket key : string)
| ReadStop (bucket key : string)
| PFile_Close (bucket key : string).

Record World : Type := mkWorld {
  disk : gset string;
  trace : list Event
}.

Definition emit (e : Event) (w : World) : World :=
  {| disk := disk w; trace := trace w ++ [e] |}.

(** What the collaborators answer during one call of the adapter. *)
Record External : Type := mkExternal {
  TempFile_result : error + string;
  DownloadWithContext_result : option error;
  orc_Open_result : error + orc.File;
  NewS3FileReaderWithClient_result : option error;
  NewParquetReader_result : option error;
  Cursor_Close_result : option error;
  Reader_Close_result : option error
}.

(** ** The factory and its cache of materialised files *)

Module ManifestFile.
Record t : Type := mk { Key : string }.
End ManifestFile.

(** Modelled from the spec: the manifest type is declared elsewhere in the
    package; these are the fields the reader uses. *)
Record Manifest : Type := mkManifest {
  Format : string;
  inventoryBucket : string;
  Files : list ManifestFile.t
}.

Module orcFile.
Record t : Type := mk {
  key : string;
  idx : Z;
  localFilename : string;
  ready : bool
}.
End orcFile.

Record InventoryReader : Type := mkInventoryReader {
  manifest : Manifest;
  orcFilesByKey : gmap string orcFile.t
}.

Definition NewInventoryReader : InventoryReader :=
  {| manifest := {| Format := ""; inventoryBucket := ""; Files := [] |};
     orcFilesByKey := ∅ |}.

(** The entries of the Go map are pointers: a field update of [file] is an
    update of the entry stored under [key]. *)
Definition store (o : InventoryReader) (key : string) (file : orcFile.t) : InventoryReader :=
  {| manifest := manifest o; orcFilesByKey := <[key := file]> (orcFilesByKey o) |}.

(** [o.orcFilesByKey[key].localFilename] dereferences a nil pointer when the
    key is absent. The deferred [os.Remove] is taken to delete the file; the
    code discards its error. *)
Definition clean (o : InventoryReader) (w : World) (key : string)
    : outcome (InventoryReader * World) :=
  match orcFilesByKey o !! key with
  | None => Panicked "invalid memory address or nil pointer dereference"
  | Some file =>
      let localFilename := orcFile.localFilename file in
      let o := {| manifest := manifest o; orcFilesByKey := delete key (orcFilesByKey o) |} in
      let w := {| disk := disk w ∖ {[localFilename]};
                  trace := trace w ++ [os_Remove localFilename] |} in
      Returned (o, w)
  end.

Definition download (o : InventoryReader) (w : World) (key : string) (ext : External)
    : World * (string * option error) :=
  let w := emit (ioutil_TempFile key) w in
  match TempFile_result ext with
  | inl err => (w, ("", Some err))
  | inr f =>
      let w := {| disk := disk w ∪ {[f]}; trace := trace w |} in
      let w := emit (DownloadWithContext (inventoryBucket (manifest o)) key f) w in
      match DownloadWithContext_result ext with
      | Some err => (w, ("", Some err))
      | None => (w, (f, None))
      end
  end.

Fixpoint index_of (key : string) (files : list ManifestFile.t) (idx : Z) : option Z :=
  match files with
  | [] => None
  | f :: files =>
      if decide (ManifestFile.Key f = key) then Some idx
      else index_of key files (idx + 1)%Z
  end.

Definition getParquetReader (o : InventoryReader) (w : World) (key : string) (ext : External)
    : InventoryReader * World * (option ManifestFileReader * option error) :=
  let bucket := inventoryBucket (manifest o) in
  let w := emit (NewS3FileReaderWithClient bucket key) w in
  match NewS3FileReaderWithClient_result ext with
  | Some err => (o, w, (None, Some (fmt_Errorf_w "failed to create parquet file reader: " err)))
  | None =>
      let w := emit (NewParquetReader bucket key) w in
      match NewParquetReader_result ext with
      | Some err => (o, w, (None, Some (fmt_Errorf_w "failed to create parquet reader: " err)))
      | None =>
          let pr := {| parquet.PFileBucket := bucket; parquet.PFileKey := key |} in
          (o, w, (Some (ParquetManifestFileReaderOf (ParquetManifestFileReader.mk pr)), None))
      end
  end.

Definition getOrcReader (o : InventoryReader) (w : World) (key : string) (ext : External)
    : InventoryReader * World * (option ManifestFileReader * option error) :=
  let '(file, o) :=
    match orcFilesByKey o !! key with
    | Some file => (file, o)
    | None =>
        let file := orcFile.mk key 0 "" false in
        (file, store o key file)
    end in
  let file :=
    match index_of key (Files (manifest o)) 0 with
    | Some idx => orcFile.mk (orcFile.key file) idx (orcFile.localFilename file) (orcFile.ready file)
    | None => file
    end in
  let o := store o key file in
  let '(o, w, file, err) :=
    if negb (orcFile.ready file) then
      let '(w, (localFilename, err)) := download o w key ext in
      match err with
      | Some err => (o, w, file, Some err)
      | None =>
          let file := orcFile.mk (orcFile.key file) (orcFile.idx file) localFilename true in
          (store o key file, w, file, None)
      end
    else (o, w, file, None) in
  match err with
  | Some err => (o, w, (None, Some err))
  | None =>
      let w := emit (orc_Open (orcFile.localFilename file)) w in
      match orc_Open_result ext with
      | inl err => (o, w, (None, Some err))
      | inr f =>
          let orcReader := {| orc.name := orcFile.localFilename file; orc.file := f |} in
          let res := OrcManifestFileReader.mk orcReader (orc.Select orcReader) key in
          (o, w, (Some (OrcManifestFileReaderOf res), None))
      end
  end.

Definition GetManifestFileReader (o : InventoryReader) (w : World) (key : string) (ext : External)
    : InventoryReader * World * (option ManifestFileReader * option error) :=
  if decide (Format (manifest o) = "ORC") then getOrcReader o w key ext
  else if decide (Format (manifest o) = "Parquet") then getParquetReader o w key ext
  else (o, w, (None, Some ErrUnsupportedInventoryFormat)).

(** ** Closing readers *)

(** A call that has returned, or one that is still running when its fuel is
    used up, with the world as it is then. *)
Inductive progress (A : Type) : Type :=
| finished (a : A)
| still_running (w : World).
Arguments finished {A} a.
Arguments still_running {A} w.

(** The method calls itself: [p.Close()] inside [Close] selects the method
    of [*ParquetManifestFileReader], the embedded reader has no [Close] of
    its own to promote. One unit of fuel pays for one activation. *)
Fixpoint ParquetManifestFileReader_Close (fuel : nat) (p : ParquetManifestFileReader.t)
    (w : World) : progress (World * option error) :=
  match fuel with
  | O => still_running w
  | S fuel =>
      let pr := ParquetManifestFileReader.ParquetReader p in
      let w := emit (ReadStop (parquet.PFileBucket pr) (parquet.PFileKey pr)) w in
      ParquetManifestFileReader_Close fuel p w
  end.

Definition OrcManifestFileReader_Close (o : InventoryReader) (w : World)
    (r : OrcManifestFileReader.t) (ext : External)
    : outcome (InventoryReader * World * option error) :=
  let w := emit orc_Cursor_Close w in
  let _ := Cursor_Close_result ext in
  let w := emit (orc_Reader_Close (orc.name (OrcManifestFileReader.reader r))) w in
  let _ := Reader_Close_result ext in
  match clean o w (OrcManifestFileReader.key r) with
  | Panicked msg => Panicked msg
  | Returned (o, w) => Returned (o, w, None)
  end.

(** ** Notions used to state the properties *)

Abbreviation omfr_c := OrcManifestFileReader.c.

(** Rows that [inventoryObjectFromOrc] converts without a panic, with their
    objects. *)
Definition decoded (rows : list orc.RowData) (objs : list InventoryObject) : Prop :=
  Forall2 (λ row o, inventoryObjectFromOrc row = Returned o) rows objs.

Definition stripes_nonempty (c : orc.Cursor) : Prop :=
  Forall (λ s : list orc.RowData, s ≠ []) (orc.nextStripes c).

(** The zero value of [InventoryObject], as in [make([]InventoryObject, n)]. *)
Definition zero_object : InventoryObject :=
  {| Bucket := ""; Key := ""; Size := None; LastModified := None |}.

(** A caller that reads one batch after the other, each into a new slice of
    the given length, and keeps what each call left in its slice. *)
Fixpoint Read_each (r : OrcManifestFileReader.t) (lengths : list nat)
    : option (OrcManifestFileReader.t * list (list InventoryObject)) :=
  match lengths with
  | [] => Some (r, [])
  | n :: lengths =>
      match Read r (replicate n zero_object) with
      | Some (Returned (r, batch, None)) =>
          match Read_each r lengths with
          | Some (r, batches) => Some (r, batch :: batches)
          | None => None
          end
      | _ => None
      end
  end.

(** *** The cache of the factory *)

(** States of the factory and the world that calls of the reader can
    produce, the manifest having been set by the package beforehand. A
    Parquet [Close] contributes no step, it does not return. *)
Inductive reachable : InventoryReader → World → Prop :=
| reachable_new (m : Manifest) (w : World) :
    reachable {| manifest := m; orcFilesByKey := orcFilesByKey NewInventoryReader |} w
| reachable_get o w key ext o' w' res :
    reachable o w →
    GetManifestFileReader o w key ext = (o', w', res) →
    reachable o' w'
| reachable_close o w r ext o' w' err :
    reachable o w →
    OrcManifestFileReader_Close o w r ext = Returned (o', w', err) →
    reachable o' w'.

(** Every entry is stored under its own key, and an entry that is not ready
    records no local file. *)
Definition cache_ok (o : InventoryReader) : Prop :=
  ∀ k file, orcFilesByKey o !! k = Some file →
    orcFile.key file = k ∧
    (orcFile.ready file = false → orcFile.localFilename file = "").

(** The entry [getOrcReader] works on: the one in the cache, or a new one. *)
Definition entry_for (o : InventoryReader) (key : string) : orcFile.t :=
  default (orcFile.mk key 0 "" false) (orcFilesByKey o !! key).

(** What [download] returns, as a function of the collaborators' answers. *)
Definition download_error (ext : External) : option error :=
  match TempFile_result ext with
  | inl err => Some err
  | inr _ => DownloadWithContext_result ext
  end.

(** *** Requests for one key *)

(** Calls of [DownloadWithContext] for [key] in a trace. *)
Fixpoint download_calls (key : string) (tr : list Event) : nat :=
  match tr with
  | [] => 0
  | DownloadWithContext _ k _ :: tr =>
      (if decide (k = key) then 1 else 0) + download_calls key tr
  | _ :: tr => download_calls key tr
  end.

(** The local files [orc.Open] was called on, in order. *)
Fixpoint opened (tr : list Event) : list string :=
  match tr with
  | [] => []
  | orc_Open name :: tr => name :: opened tr
  | _ :: tr => opened tr
  end.

(** The reader a request returned, if any, reads the local file [f]. *)
Definition reads_local_file (f : string) (res : option ManifestFileReader * option error) : Prop :=
  ∀ r, res.1 = Some (OrcManifestFileReaderOf r) →
       orc.name (OrcManifestFileReader.reader r) = f.

(** Sequential requests of readers for one key, none of them closed. *)
Fixpoint requests (o : InventoryReader) (w : World) (key : string) (exts : list External)
    : InventoryReader * World * list (option ManifestFileReader * option error) :=
  match exts with
  | [] => (o, w, [])
  | ext :: exts =>
      let '(o, w, res) := GetManifestFileReader o w key ext in
      let '(o, w, results) := requests o w key exts in
      (o, w, res :: results)
  end.

(** *** The scenario file: five records in two stripes of three and two *)

Definition scenario_row (n : Z) : orc.RowData :=
  [orc.VString "bucket"; orc.VString "key"; orc.VInt64 n; orc.VTime (1600000000 + n)].

Definition scenario_object (n : Z) : InventoryObject :=
  {| Bucket := "bucket"; Key := "key"; Size := Some n;
     LastModified := Some (1600000000 + n)%Z |}.

Definition scenario_file : orc.File :=
  {| orc.stripes := [scenario_row <$> [1; 2; 3]; scenario_row <$> [4; 5]]%Z;
     orc.numberOfRows := 5 |}.

(** The reader [getOrcReader] returns for the scenario file. *)
Definition scenario_reader : OrcManifestFileReader.t :=
  let orcReader := {| orc.name := "/tmp/inventory.orc"; orc.file := scenario_file |} in
  OrcManifestFileReader.mk orcReader (orc.Select orcReader) "inventory.orc".

(** A new ORC factory for a manifest with the scenario file, an empty
    world, and collaborators that succeed, fail to download, or fail to
    close. *)
Definition scenario_manifest (format : string) : Manifest :=
  {| Format := format; inventoryBucket := "inventory";
     Files := [ManifestFile.mk "inventory.orc"] |}.

Definition scenario_factory : InventoryReader :=
  {| manifest := scenario_manifest "ORC";
     orcFilesByKey := orcFilesByKey NewInventoryReader |}.

Definition scenario_world : World := {| disk := ∅; trace := [] |}.

Definition answers (download cursor_close reader_close : option error) : External :=
  {| TempFile_result := inr "/tmp/inventory.orc";
     DownloadWithContext_result := download;
     orc_Open_result := inr scenario_file;
     NewS3FileReaderWithClient_result := None;
     NewParquetReader_result := None;
     Cursor_Close_result := cursor_close;
     Reader_Close_result := reader_close |}.

(** The factory once the scenario file is materialised. *)
Definition materialised_factory : InventoryReader :=
  store scenario_factory "inventory.orc"
    (orcFile.mk "inventory.orc" 0 "/tmp/inventory.orc" true).

Definition materialised_world : World :=
  {| disk := {[ "/tmp/inventory.orc" ]};
     trace := [ioutil_TempFile "inventory.orc";
               DownloadWithContext "inventory" "inventory.orc" "/tmp/inventory.orc";
               orc_Open "/tmp/inventory.orc"] |}.

(** A record of a delete marker: the inventory lists no size for it. *)
Definition delete_marker_row : orc.RowData :=
  [orc.VString "bucket"; orc.VString "key"; orc.VNil; orc.VTime 1600000000].

(** Collaborators with the given answers for the temporary file, the
    download and the opening of the local file. *)
Definition collaborators (temp : error + string) (download : option error)
    (opening : error + orc.File) : External :=
  {| TempFile_result := temp;
     DownloadWithContext_result := download;
     orc_Open_result := opening;
     NewS3FileReaderWithClient_result := None;
     NewParquetReader_result := None;
     Cursor_Close_result := None;
     Reader_Close_result := None |}.

(** Collaborators of a Parquet request. *)
Definition parquet_collaborators (s3_open new_reader : option error) : External :=
  {| TempFile_result := inr "/tmp/unused";
     DownloadWithContext_result := None;
     orc_Open_result := inr scenario_file;
     NewS3FileReaderWithClient_result := s3_open;
     NewParquetReader_result := new_reader;
     Cursor_Close_result := None;
     Reader_Close_result := None |}.

(** A reader of a file whose second record is a delete marker. *)
Definition delete_marker_reader : OrcManifestFileReader.t :=
  let orcReader :=
    {| orc.name := "/tmp/inventory.orc";
       orc.file := {| orc.stripes := [[scenario_row 1; delete_marker_row; scenario_row 3]];
                      orc.numberOfRows := 3 |} |} in
  OrcManifestFileReader.mk orcReader (orc.Select orcReader) "inventory.orc".

(** The scenario reader after its first record was read. *)
Definition scenario_reader_after_one : OrcManifestFileReader.t :=
  OrcManifestFileReader.with_c scenario_reader
    {| orc.stream := scenario_row <$> [2; 3]%Z;
       orc.nextStripes := [scenario_row <$> [4; 5]%Z];
       orc.nextVal := scenario_row 1 |}.

(** What a request returns once the local file is there. *)
Definition opened_reader (ext : External) (localFilename key : string)
    : option ManifestFileReader * option error :=
  match orc_Open_result ext with
  | inl err => (None, Some err)
  | inr f =>
      let orcReader := {| orc.name := localFilename; orc.file := f |} in
      (Some (OrcManifestFileReaderOf
               (OrcManifestFileReader.mk orcReader (orc.Select orcReader) key)), None)
  end.

(** The entry after the scan of the manifest. *)
Definition scanned (o : InventoryReader) (key : string) : orcFile.t :=
  let file := entry_for o key in
  orcFile.mk (orcFile.key file)
    (default (orcFile.idx file) (index_of key (Files (manifest o)) 0))
    (orcFile.localFilename file) (orcFile.ready file).

(** * Properties *)

(** ** Reading from a cursor whose stripes are not empty *)

Lemma concat_nonempty_nil (ss : list (list orc.RowData)) :
  Forall (λ s : list orc.RowData, s ≠ []) ss → concat ss = [] → ss = [].
Proof.
  destruct 1 as [|s ss Hs _]; [done|].
  simpl. destruct s; [done|discriminate].
Qed.

(** One turn of the loop when a record is left: the record is converted and
    the cursor moves past it, across a stripe boundary if need be. *)
Lemma Read_loop_fetch (c : orc.Cursor) (v : orc.RowData) (rest : list orc.RowData) :
  stripes_nonempty c → orc.pending c = v :: rest →
  ∃ c', orc.pending c' = rest ∧ stripes_nonempty c' ∧
    ∀ fuel res num,
      Read_loop (S fuel) c res num =
      match inventoryObjectFromOrc v with
      | Panicked msg => loop_panic msg
      | Returned o =>
          if decide (length (res ++ [o]) = num) then loop_break c' (res ++ [o])
          else Read_loop fuel c' (res ++ [o]) num
      end.
Proof.
  destruct c as [st ns nv]. unfold stripes_nonempty, orc.pending. simpl.
  intros Hne Hp. destruct st as [|v' st].
  - destruct ns as [|s ss]; [discriminate|].
    inversion Hne as [|? ? Hs Hss]; subst.
    destruct s as [|v' s]; [done|]. simpl in Hp. injection Hp as -> <-.
    exists (orc.mkCursor s ss v). repeat split; try done.
  - simpl in Hp. injection Hp as -> <-.
    exists (orc.mkCursor st ns v). repeat split; try done.
Qed.

(** One turn of the loop when no record is left: [return nil], the slice of
    the caller is not written. *)
Lemma Read_loop_exhausted (c : orc.Cursor) fuel res num :
  stripes_nonempty c → orc.pending c = [] →
  Read_loop (S fuel) c res num = loop_return_nil c.
Proof.
  destruct c as [st ns nv]. unfold stripes_nonempty, orc.pending. simpl.
  intros Hne Hp. apply app_eq_nil in Hp as [-> Hc].
  apply concat_nonempty_nil in Hc as ->; done.
Qed.

(** A batch that the pending records can fill is filled with the next [k]
    records, in file order. *)
Lemma Read_loop_fill (k : nat) :
  ∀ fuel c res num objs,
    stripes_nonempty c → length res + S k = num → S k ≤ fuel →
    decoded (take (S k) (orc.pending c)) objs → S k ≤ length (orc.pending c) →
    ∃ c', Read_loop fuel c res num = loop_break c' (res ++ objs) ∧
          orc.pending c' = drop (S k) (orc.pending c) ∧ stripes_nonempty c'.
Proof.
  induction k as [|k IH]; intros fuel c res num objs Hne Hnum Hfuel Hdec Hlen;
    subst num.
  - destruct (orc.pending c) as [|v rest] eqn:Hp; [simpl in Hlen; lia|].
    destruct (Read_loop_fetch c v rest Hne Hp) as (c' & Hp' & Hne' & Hstep).
    destruct fuel as [|fuel]; [lia|]. rewrite Hstep.
    simpl in Hdec. rewrite take_0 in Hdec.
    apply Forall2_cons_inv_l in Hdec as (o & objs' & Ho & Hrest & ->).
    apply Forall2_nil_inv_l in Hrest as ->.
    rewrite Ho. rewrite decide_True by (rewrite length_app; simpl; lia).
    exists c'. simpl. by rewrite ?drop_0.
  - destruct (orc.pending c) as [|v rest] eqn:Hp; [simpl in Hlen; lia|].
    destruct (Read_loop_fetch c v rest Hne Hp) as (c' & Hp' & Hne' & Hstep).
    destruct fuel as [|fuel]; [lia|]. rewrite Hstep.
    change (take (S (S k)) (v :: rest)) with (v :: take (S k) rest) in Hdec.
    apply Forall2_cons_inv_l in Hdec as (o & objs' & Ho & Hrest & ->).
    rewrite Ho. rewrite decide_False by (rewrite length_app; simpl; lia).
    destruct (IH fuel c' (res ++ [o]) (length res + S (S k)) objs') as (c'' & Hr & Hp'' & Hne'').
    + done.
    + rewrite length_app. simpl. lia.
    + lia.
    + by rewrite Hp'.
    + rewrite Hp'. simpl in Hlen. lia.
    + exists c''. rewrite Hr, <- app_assoc. simpl. rewrite Hp'' , Hp'. done.
Qed.

(** [Read] with a buffer that the pending records can fill. *)
Lemma Read_fill (r : OrcManifestFileReader.t) (dst objs : list InventoryObject) :
  stripes_nonempty (omfr_c r) →
  0 < length dst ≤ length (orc.pending (omfr_c r)) →
  decoded (take (length dst) (orc.pending (omfr_c r))) objs →
  ∃ r', Read r dst = Some (Returned (r', objs, None)) ∧
        orc.pending (omfr_c r') = drop (length dst) (orc.pending (omfr_c r)) ∧
        stripes_nonempty (omfr_c r').
Proof.
  intros Hne [Hpos Hlen] Hdec. unfold Read.
  destruct (length dst) as [|k] eqn:Hk; [lia|].
  destruct (Read_loop_fill k (S (rows_left (omfr_c r))) (omfr_c r) [] (S k) objs)
    as (c' & Hr & Hp & Hne'); try done.
  - unfold rows_left. lia.
  - rewrite Hr. exists (OrcManifestFileReader.with_c r c'). done.
Qed.

(** When fewer records are pending than the buffer holds, [Read] consumes
    them all and returns without writing the buffer. *)
Lemma Read_loop_short :
  ∀ rows fuel c res num objs,
    orc.pending c = rows → stripes_nonempty c → length rows < fuel →
    decoded rows objs → length res + length rows < num →
    ∃ c', Read_loop fuel c res num = loop_return_nil c' ∧ orc.pending c' = [].
Proof.
  induction rows as [|v rest IH]; intros fuel c res num objs Hp Hne Hfuel Hdec Hnum.
  - destruct fuel as [|fuel]; [simpl in Hfuel; lia|].
    exists c. by rewrite Read_loop_exhausted.
  - destruct (Read_loop_fetch c v rest Hne Hp) as (c' & Hp' & Hne' & Hstep).
    destruct fuel as [|fuel]; [lia|]. rewrite Hstep.
    apply Forall2_cons_inv_l in Hdec as (o & objs' & Ho & Hrest & ->).
    rewrite Ho. simpl in Hnum, Hfuel.
    rewrite decide_False by (rewrite length_app; simpl; lia).
    apply (IH fuel c' (res ++ [o]) num objs'); try done; [lia|].
    rewrite length_app. simpl. lia.
Qed.

Lemma Read_short (r : OrcManifestFileReader.t) (dst objs : list InventoryObject) :
  stripes_nonempty (omfr_c r) →
  length (orc.pending (omfr_c r)) < length dst →
  decoded (orc.pending (omfr_c r)) objs →
  ∃ r', Read r dst = Some (Returned (r', dst, None)) ∧ orc.pending (omfr_c r') = [].
Proof.
  intros Hne Hlen Hdec. unfold Read.
  destruct (Read_loop_short (orc.pending (omfr_c r)) (S (rows_left (omfr_c r)))
              (omfr_c r) [] (length dst) objs) as (c' & Hr & Hp); try done.
  - unfold rows_left. lia.
  - rewrite Hr. by exists (OrcManifestFileReader.with_c r c').
Qed.

(** The loop of [Read] never outlives the fuel [Read] gives it. *)
Lemma Read_loop_fuel_enough :
  ∀ fuel c res num, rows_left c < fuel → Read_loop fuel c res num ≠ loop_fuel.
Proof.
  induction fuel as [|fuel IH]; intros c res num Hlt; [lia|].
  destruct c as [st ns nv]. unfold rows_left, orc.pending in Hlt. simpl in Hlt.
  assert (Hstep : ∀ st' ns' v,
    length st' + length (concat ns') < fuel →
    match inventoryObjectFromOrc v with
    | Panicked msg => loop_panic msg
    | Returned o =>
        if decide (length (res ++ [o]) = num)
        then loop_break (orc.mkCursor st' ns' v) (res ++ [o])
        else Read_loop fuel (orc.mkCursor st' ns' v) (res ++ [o]) num
    end ≠ loop_fuel).
  { intros st' ns' v Hlt'. destruct (inventoryObjectFromOrc v); [|done].
    case_decide; [done|]. apply IH. unfold rows_left, orc.pending. simpl.
    rewrite length_app. lia. }
  destruct st as [|v st]; simpl.
  - destruct ns as [|s ss]; simpl; [done|].
    destruct s as [|v s]; simpl; [done|].
    apply Hstep. simpl in Hlt. rewrite !length_app in Hlt. simpl in Hlt. lia.
  - apply Hstep. rewrite length_app in Hlt. simpl in Hlt. lia.
Qed.

Lemma Read_terminates (r : OrcManifestFileReader.t) (dst : list InventoryObject) :
  is_Some (Read r dst).
Proof.
  unfold Read.
  pose proof (Read_loop_fuel_enough (S (rows_left (omfr_c r))) (omfr_c r) [] (length dst)) as H.
  destruct (Read_loop _ _ _ _); try done. exfalso. apply H; [lia|done].
Qed.

(** ** Skipping *)

Lemma wrap64_small (z : Z) : (- 2 ^ 63 ≤ z < 2 ^ 63)%Z → wrap64 z = z.
Proof. intros H. unfold wrap64. rewrite Z.mod_small; lia. Qed.

(** The inner loop on a stripe with [st] left: it stops inside the stripe
    when the stripe holds the records still to skip, and uses the stripe up
    otherwise. *)
Lemma SkipRows_rows_spec :
  ∀ st fuel ns nv skipped i,
    (0 ≤ skipped < i)%Z → (i < 2 ^ 63)%Z → length st < fuel →
    ∃ c', orc.nextStripes c' = ns ∧
      if decide (i - skipped ≤ Z.of_nat (length st))%Z
      then SkipRows_rows fuel (orc.mkCursor st ns nv) skipped i = skip_return_nil c' ∧
           orc.stream c' = drop (Z.to_nat (i - skipped)) st
      else SkipRows_rows fuel (orc.mkCursor st ns nv) skipped i
             = skip_stripe_done c' (skipped + Z.of_nat (length st)) ∧
           orc.stream c' = [].
Proof.
  induction st as [|v st IH]; intros fuel ns nv skipped i Hs Hi Hfuel;
    (destruct fuel as [|fuel]; [simpl in Hfuel; lia|]).
  - exists (orc.mkCursor [] ns nv). split; [done|].
    rewrite decide_False by (simpl; lia). simpl. split; [|done].
    f_equal. lia.
  - simpl. rewrite wrap64_small by lia.
    destruct (decide (skipped + 1 = i)%Z) as [Heq|Hneq].
    + exists (orc.mkCursor st ns v). split; [done|].
      rewrite decide_True by lia. split; [done|].
      replace (Z.to_nat (i - skipped)) with 1 by lia. done.
    + destruct (IH fuel ns v (skipped + 1)%Z i) as (c' & Hns & Hc'); [lia|lia|simpl in Hfuel; lia|].
      exists c'. split; [done|].
      destruct (decide (i - (skipped + 1) ≤ Z.of_nat (length st))%Z) as [Hle|Hgt].
      * rewrite decide_True by lia. destruct Hc' as [-> ->]. split; [done|].
        replace (Z.to_nat (i - skipped)) with (S (Z.to_nat (i - (skipped + 1)))) by lia.
        done.
      * rewrite decide_False by lia. destruct Hc' as [-> ->]. split; [|done].
        f_equal. lia.
Qed.

(** The outer loop: [Stripes] comes first in every turn, so the records
    counted are those of the stripes not prepared yet. *)
Lemma SkipRows_stripes_spec :
  ∀ ns fuel st nv skipped i,
    (0 ≤ skipped < i)%Z → (i < 2 ^ 63)%Z → length ns < fuel →
    ∃ c',
      if decide (i - skipped ≤ Z.of_nat (length (concat ns)))%Z
      then SkipRows_stripes fuel (orc.mkCursor st ns nv) skipped i = Some (c', None) ∧
           orc.pending c' = drop (Z.to_nat (i - skipped)) (concat ns) ∧
           ∃ ns', ns = ns' ++ orc.nextStripes c'
      else SkipRows_stripes fuel (orc.mkCursor st ns nv) skipped i
             = Some (c', Some (errors_New "no more rows to skip")).
Proof.
  induction ns as [|s ss IH]; intros fuel st nv skipped i Hs Hi Hfuel;
    (destruct fuel as [|fuel]; [simpl in Hfuel; lia|]).
  - exists (orc.mkCursor [] [] nv). rewrite decide_False by (simpl; lia). done.
  - cbn [SkipRows_stripes orc.Stripes orc.nextStripes orc.stream orc.nextVal].
    destruct (SkipRows_rows_spec s (S (length s)) ss nv skipped i) as (c1 & Hns1 & Hc1);
      [done|done|lia|].
    simpl concat. rewrite length_app.
    destruct (decide (i - skipped ≤ Z.of_nat (length s))%Z) as [Hin|Hout].
    + destruct Hc1 as [-> Hst]. exists c1.
      rewrite decide_True by lia. split; [done|]. split.
      * unfold orc.pending. rewrite Hst, Hns1.
        rewrite drop_app_le by lia. done.
      * exists [s]. by rewrite Hns1.
    + destruct Hc1 as [-> Hst]. destruct c1 as [st1 ns1 nv1]. simpl in Hns1, Hst.
      subst st1 ns1.
      destruct (IH fuel [] nv1 (skipped + Z.of_nat (length s))%Z i) as (c' & Hc');
        [lia|lia|simpl in Hfuel; lia|].
      exists c'.
      destruct (decide (i - (skipped + Z.of_nat (length s)) ≤ Z.of_nat (length (concat ss)))%Z)
        as [Hle|Hgt].
      * rewrite decide_True by lia. destruct Hc' as (-> & Hp & ns' & Hns'). split; [done|].
        split.
        -- rewrite Hp. rewrite drop_app_ge by lia. f_equal. lia.
        -- exists (s :: ns'). by rewrite Hns' at 1.
      * rewrite decide_False by lia. done.
Qed.

(** [SkipRows] returns whatever the count asked for: its loops never outlive
    the fuel they are given. *)
Lemma SkipRows_rows_total :
  ∀ st fuel ns nv skipped i,
    length st < fuel →
    (∃ c', SkipRows_rows fuel (orc.mkCursor st ns nv) skipped i = skip_return_nil c') ∨
    (∃ c' skipped',
       SkipRows_rows fuel (orc.mkCursor st ns nv) skipped i = skip_stripe_done c' skipped' ∧
       orc.stream c' = [] ∧ orc.nextStripes c' = ns).
Proof.
  induction st as [|v st IH]; intros fuel ns nv skipped i Hfuel;
    (destruct fuel as [|fuel]; [simpl in Hfuel; lia|]); simpl.
  - right. by eexists _, _.
  - case_decide; [left; by eexists|].
    apply IH. simpl in Hfuel. lia.
Qed.

Lemma SkipRows_stripes_total :
  ∀ ns fuel st nv skipped i,
    length ns < fuel →
    is_Some (SkipRows_stripes fuel (orc.mkCursor st ns nv) skipped i).
Proof.
  induction ns as [|s ss IH]; intros fuel st nv skipped i Hfuel;
    (destruct fuel as [|fuel]; [simpl in Hfuel; lia|]).
  - done.
  - cbn [SkipRows_stripes orc.Stripes orc.nextStripes orc.stream orc.nextVal].
    destruct (SkipRows_rows_total s (S (length s)) ss nv skipped i)
      as [[c' ->]|(c' & skipped' & -> & Hst & Hns)]; [lia|done|].
    destruct c' as [st' ns' nv']. simpl in Hns. subst ns'.
    apply IH. simpl in Hfuel. lia.
Qed.

Lemma SkipRows_terminates (r : OrcManifestFileReader.t) (i : Z) :
  is_Some (SkipRows r i).
Proof.
  unfold SkipRows. case_decide; [done|].
  destruct r as [rd [st ns nv] key]. simpl.
  destruct (SkipRows_stripes_total ns (S (length ns)) st nv 0 i) as [[c' err] Heq]; [lia|].
  simpl in Heq. by rewrite Heq.
Qed.

(** ** A run of reads *)

Lemma decoded_take_drop (rows : list orc.RowData) (objs : list InventoryObject) (n : nat) :
  decoded rows objs → decoded (take n rows) (take n objs) ∧ decoded (drop n rows) (drop n objs).
Proof.
  intros H. split; [by apply Forall2_take|by apply Forall2_drop].
Qed.

(** Batches that the pending records fill completely come out as the
    consecutive pieces of the pending records. *)
Lemma Read_each_fill :
  ∀ lengths r objs,
    stripes_nonempty (omfr_c r) → decoded (orc.pending (omfr_c r)) objs →
    Forall (λ n, 0 < n) lengths → sum_list lengths ≤ length objs →
    ∃ r' batches,
      Read_each r lengths = Some (r', batches) ∧
      concat batches = take (sum_list lengths) objs ∧
      length <$> batches = lengths ∧
      orc.pending (omfr_c r') = drop (sum_list lengths) (orc.pending (omfr_c r)) ∧
      stripes_nonempty (omfr_c r').
Proof.
  induction lengths as [|n lengths IH]; intros r objs Hne Hdec Hpos Hsum.
  - exists r, []. simpl. by rewrite take_0, drop_0.
  - apply Forall_cons in Hpos as [Hn Hpos]. simpl in Hsum.
    pose proof (Forall2_length _ _ _ Hdec) as Hlen.
    destruct (decoded_take_drop _ _ n Hdec) as [Htake Hdrop].
    destruct (Read_fill r (replicate n zero_object) (take n objs)) as (r1 & Hr1 & Hp1 & Hne1).
    { done. }
    { rewrite length_replicate. lia. }
    { by rewrite length_replicate. }
    rewrite length_replicate in Hp1.
    destruct (IH r1 (drop n objs)) as (r' & batches & Hr' & Hcat & Hlens & Hp' & Hne').
    { done. }
    { by rewrite Hp1. }
    { done. }
    { rewrite length_drop. lia. }
    exists r', (take n objs :: batches).
    split; [simpl; by rewrite Hr1, Hr'|].
    split; [simpl; by rewrite Hcat, take_take_drop|].
    split; [rewrite fmap_cons, Hlens, length_take; f_equal; lia|].
    split; [simpl; by rewrite Hp', Hp1, drop_drop|done].
Qed.

(** ** The scenario *)

(** C1. On the scenario file, [Read] into a slice of length four fills it
    with records 1 to 4; the second call consumes record 5, meets the end of
    the data and returns nil without writing the slice of the caller, which
    still holds its four elements instead of the one record read; the third
    call leaves its slice of four untouched as well. *)
Theorem Read_scenario_exhausted_mid_call :
  ∃ r1 r2,
    Read scenario_reader (replicate 4 zero_object)
      = Some (Returned (r1, scenario_object <$> [1; 2; 3; 4]%Z, None)) ∧
    orc.pending (omfr_c r1) = [scenario_row 5] ∧
    Read r1 (replicate 4 zero_object)
      = Some (Returned (r2, replicate 4 zero_object, None)) ∧
    orc.pending (omfr_c r2) = [] ∧
    Read r2 (replicate 4 zero_object)
      = Some (Returned (r2, replicate 4 zero_object, None)).
Proof.
  eexists _, _. split; [vm_compute; reflexivity|].
  split; [reflexivity|]. split; [vm_compute; reflexivity|].
  split; reflexivity.
Qed.

(** C2. On the scenario file, whose metadata declares the five records it
    holds, reads
    into slices of length four deliver records 1 to 4 only: the call that
    consumes record 5 hands back the slice it was given, whatever it held,
    and so does every later call. Record 5 reaches no caller. *)
Theorem Read_scenario_last_record_lost (a b c d : InventoryObject) :
  orc.consistent scenario_file ∧
  GetNumRows scenario_reader = 5%Z ∧
  ∃ r1 r2,
    Read scenario_reader [a; b; c; d]
      = Some (Returned (r1, scenario_object <$> [1; 2; 3; 4]%Z, None)) ∧
    (∀ a' b' c' d',
       Read r1 [a'; b'; c'; d'] = Some (Returned (r2, [a'; b'; c'; d'], None))) ∧
    (∀ dst, Read r2 dst = Some (Returned (r2, dst, None))).
Proof.
  split; [reflexivity|]. split; [reflexivity|].
  eexists _, _. split; [vm_compute; reflexivity|].
  split; [intros; vm_compute; reflexivity|].
  intros dst. reflexivity.
Qed.

(** C9. [SkipRows(0)] returns nil and the reader as it was, so a [Read] after
    it is the [Read] without it. *)
Theorem SkipRows_zero_is_noop (r : OrcManifestFileReader.t) :
  SkipRows r 0 = Some (r, None) ∧
  ∀ dst, (SkipRows r 0 ≫= λ '(r', _), Read r' dst) = Read r dst.
Proof. split; [reflexivity|]. intros dst. reflexivity. Qed.

(** C5. On the scenario file, after one record is read, four records are
    pending; [SkipRows(1)] calls [Stripes] before [Next], so it passes over
    records 2 and 3 uncounted and skips record 4: it returns nil with only
    record 5 pending, not records 3 to 5, and the next [Read] delivers
    record 5, not record 3. *)
Lemma SkipRows_inside_stripe_overshoots :
  ∃ r1 r2 r3,
    Read scenario_reader [zero_object]
      = Some (Returned (r1, [scenario_object 1], None)) ∧
    orc.pending (omfr_c r1) = scenario_row <$> [2; 3; 4; 5]%Z ∧
    SkipRows r1 1 = Some (r2, None) ∧
    orc.pending (omfr_c r2) = [scenario_row 5] ∧
    orc.pending (omfr_c r2) ≠ drop 1 (orc.pending (omfr_c r1)) ∧
    Read r2 [zero_object] = Some (Returned (r3, [scenario_object 5], None)).
Proof.
  eexists _, _, _. split; [vm_compute; reflexivity|].
  split; [reflexivity|]. split; [vm_compute; reflexivity|].
  split; [reflexivity|]. split; [discriminate|]. vm_compute. reflexivity.
Qed.

(** X24. For a cursor that stands at a stripe boundary (as that of a new
    reader does) with R records pending, and an [int64] count [n ≥ 0]: when
    [n ≤ R], [SkipRows(n)] returns nil and leaves exactly the records after
    the first [n] pending; if moreover the stripes are not empty and these
    records convertible, reads into new slices of positive lengths that add
    up to no more than [R - n] then deliver them piece by piece in file
    order, each slice filled to its length. When [R < n], [SkipRows(n)]
    returns the error "no more rows to skip". *)
Theorem SkipRows_from_stripe_boundary (r : OrcManifestFileReader.t) (n : Z) :
  orc.stream (omfr_c r) = [] → (0 ≤ n < 2 ^ 63)%Z →
  ((n ≤ Z.of_nat (length (orc.pending (omfr_c r))))%Z →
   ∃ r', SkipRows r n = Some (r', None) ∧
     orc.pending (omfr_c r') = drop (Z.to_nat n) (orc.pending (omfr_c r)) ∧
     ∀ objs lengths,
       stripes_nonempty (omfr_c r) →
       decoded (drop (Z.to_nat n) (orc.pending (omfr_c r))) objs →
       Forall (λ k, 0 < k) lengths → sum_list lengths ≤ length objs →
       ∃ r'' batches,
         Read_each r' lengths = Some (r'', batches) ∧
         concat batches = take (sum_list lengths) objs ∧
         length <$> batches = lengths) ∧
  ((Z.of_nat (length (orc.pending (omfr_c r))) < n)%Z →
   ∃ r', SkipRows r n = Some (r', Some (errors_New "no more rows to skip"))).
Proof.
  intros Hst Hn. destruct r as [rd [st ns nv] key]. simpl in Hst. subst st.
  unfold SkipRows, orc.pending.
  cbn [OrcManifestFileReader.c orc.stream orc.nextStripes app].
  destruct (decide (n = 0%Z)) as [->|Hn0].
  - split; [|intros; lia]. intros _.
    eexists. split; [reflexivity|]. split; [done|].
    intros objs lengths Hne Hdec Hpos Hsum.
    destruct (Read_each_fill lengths (OrcManifestFileReader.mk rd (orc.mkCursor [] ns nv) key) objs)
      as (r'' & batches & H1 & H2 & H3 & _); try done.
    by exists r'', batches.
  - destruct (SkipRows_stripes_spec ns (S (length ns)) [] nv 0 n) as (c' & Hc');
      [lia|lia|lia|].
    rewrite Z.sub_0_r in Hc'. split.
    + intros Hle. rewrite decide_True in Hc' by done.
      destruct Hc' as (-> & Hp & ns' & Hns').
      eexists. split; [reflexivity|]. split; [done|].
      intros objs lengths Hne Hdec Hpos Hsum.
      destruct (Read_each_fill lengths (OrcManifestFileReader.mk rd c' key) objs)
        as (r'' & batches & H1 & H2 & H3 & _); try done.
      * unfold stripes_nonempty in *. simpl in Hne. rewrite Hns' in Hne.
        by apply Forall_app in Hne as [_ ?].
      * simpl. by rewrite Hp.
      * by exists r'', batches.
    + intros Hgt. rewrite decide_False in Hc' by lia. rewrite Hc'.
      eexists. reflexivity.
Qed.

Lemma SkipRows_from_stripe_boundary_witness :
  (∃ r' r'' batches,
     SkipRows scenario_reader 2 = Some (r', None) ∧
     orc.pending (omfr_c r') = scenario_row <$> [3; 4; 5]%Z ∧
     Read_each r' [2; 1] = Some (r'', batches) ∧
     concat batches = scenario_object <$> [3; 4; 5]%Z) ∧
  (∃ r', SkipRows scenario_reader 6
     = Some (r', Some (errors_New "no more rows to skip"))).
Proof.
  split.
  - destruct (SkipRows_from_stripe_boundary scenario_reader 2) as [Hskip _];
      [reflexivity|lia|].
    destruct Hskip as (r' & Hr' & Hp & Hread); [simpl; lia|].
    destruct (Hread (scenario_object <$> [3; 4; 5]%Z) [2; 1])
      as (r'' & batches & Heach & Hcat & _).
    + repeat constructor; discriminate.
    + repeat constructor.
    + repeat constructor.
    + simpl. lia.
    + exists r', r'', batches. repeat split; [exact Hr'|exact Hp|exact Heach|exact Hcat].
  - destruct (SkipRows_from_stripe_boundary scenario_reader 6) as [_ Herr];
      [reflexivity|lia|].
    apply Herr. simpl. lia.
Defined.

(** ** The cache of the factory *)

Lemma store_store o key f1 f2 : store (store o key f1) key f2 = store o key f2.
Proof. unfold store. simpl. by rewrite insert_insert_eq. Qed.

Lemma manifest_store o key f : manifest (store o key f) = manifest o.
Proof. reflexivity. Qed.

Lemma store_lookup o key f : orcFilesByKey (store o key f) !! key = Some f.
Proof. unfold store. simpl. apply lookup_insert_eq. Qed.

Ltac getOrcReader_cases :=
  unfold getOrcReader, download, entry_for, download_error;
  repeat match goal with
         | |- context [match ?x with _ => _ end] =>
             lazymatch x with
             | orcFilesByKey _ !! _ => destruct x eqn:?
             | index_of _ _ _ => destruct x eqn:?
             | TempFile_result _ => destruct x eqn:?
             | DownloadWithContext_result _ => destruct x eqn:?
             | orc_Open_result _ => destruct x eqn:?
             end
         | |- context [negb (orcFile.ready ?f)] => destruct (orcFile.ready f) eqn:?
         | _ => progress (cbn [negb orcFile.ready orcFile.key orcFile.idx orcFile.localFilename
                               default fst snd manifest] in * )
         | _ => rewrite !store_store
         end.

(** [getOrcReader] rewrites the entry of its key and nothing else; the new
    entry keeps the key field, and when it is not ready it records what the
    entry recorded before. *)
Lemma getOrcReader_entry o w key ext :
  ∃ file',
    (getOrcReader o w key ext).1.1 = store o key file' ∧
    orcFile.key file' = orcFile.key (entry_for o key) ∧
    (orcFile.ready file' = false →
       orcFile.ready (entry_for o key) = false ∧
       orcFile.localFilename file' = orcFile.localFilename (entry_for o key)).
Proof.
  getOrcReader_cases; eexists; (split; [reflexivity|]); simpl; split; try done;
    intros; simplify_eq; done.
Qed.

Lemma cache_ok_store o key file :
  cache_ok o → orcFile.key file = key →
  (orcFile.ready file = false → orcFile.localFilename file = "") →
  cache_ok (store o key file).
Proof.
  intros Hok Hkey Hready k f. unfold store. simpl.
  rewrite lookup_insert. case_decide; [|by apply Hok].
  intros [= <-]. subst k. done.
Qed.

Lemma entry_for_ok o key :
  cache_ok o →
  orcFile.key (entry_for o key) = key ∧
  (orcFile.ready (entry_for o key) = false → orcFile.localFilename (entry_for o key) = "").
Proof.
  intros Hok. unfold entry_for.
  destruct (orcFilesByKey o !! key) as [file|] eqn:Hl; simpl; [by apply Hok|done].
Qed.

Lemma getOrcReader_cache_ok o w key ext :
  cache_ok o → cache_ok (getOrcReader o w key ext).1.1.
Proof.
  intros Hok. destruct (getOrcReader_entry o w key ext) as (file' & -> & Hkey & Hready).
  destruct (entry_for_ok o key Hok) as [Hk Hr].
  apply cache_ok_store; [done|congruence|].
  intros Hf. destruct (Hready Hf) as [Hr' ->]. auto.
Qed.

Lemma getParquetReader_factory o w key ext : (getParquetReader o w key ext).1.1 = o.
Proof. unfold getParquetReader. repeat case_match; done. Qed.

Lemma GetManifestFileReader_cache_ok o w key ext :
  cache_ok o → cache_ok (GetManifestFileReader o w key ext).1.1.
Proof.
  intros Hok. unfold GetManifestFileReader. repeat case_decide.
  - by apply getOrcReader_cache_ok.
  - by rewrite getParquetReader_factory.
  - done.
Qed.

Lemma clean_cache_ok o w key o' w' :
  cache_ok o → clean o w key = Returned (o', w') → cache_ok o'.
Proof.
  unfold clean. intros Hok. destruct (orcFilesByKey o !! key); [|done].
  intros [= <- <-] k f. simpl. rewrite lookup_delete. case_decide; [done|].
  apply Hok.
Qed.

Lemma reachable_cache_ok o w : reachable o w → cache_ok o.
Proof.
  induction 1 as [m w|o w key ext o' w' res _ IH Hget|o w r ext o' w' err _ IH Hclose].
  - intros k f. simpl. by rewrite lookup_empty.
  - pose proof (GetManifestFileReader_cache_ok o w key ext IH) as H.
    by rewrite Hget in H.
  - unfold OrcManifestFileReader_Close in Hclose.
    destruct (clean _ _ _) as [[o1 w1]|] eqn:Hc; [|done].
    injection Hclose as <- <- <-. by eapply clean_cache_ok.
Qed.

(** No two entries of a reachable cache carry the same key. *)
Lemma reachable_one_entry_per_key o w k1 k2 file1 file2 :
  reachable o w →
  orcFilesByKey o !! k1 = Some file1 → orcFilesByKey o !! k2 = Some file2 →
  orcFile.key file1 = orcFile.key file2 → k1 = k2.
Proof.
  intros Hr H1 H2 Heq. apply reachable_cache_ok in Hr.
  destruct (Hr _ _ H1) as [<- _]. destruct (Hr _ _ H2) as [<- _]. done.
Qed.

(** ** Requests for one key *)

Lemma download_calls_app key tr1 tr2 :
  download_calls key (tr1 ++ tr2) = download_calls key tr1 + download_calls key tr2.
Proof. induction tr1 as [|[] tr1 IH]; simpl; lia. Qed.

Lemma opened_app tr1 tr2 : opened (tr1 ++ tr2) = opened tr1 ++ opened tr2.
Proof. induction tr1 as [|[] tr1 IH]; simpl; congruence. Qed.

Lemma requests_reachable key exts :
  ∀ o w, reachable o w → reachable (requests o w key exts).1.1 (requests o w key exts).1.2.
Proof.
  induction exts as [|ext exts IH]; intros o w Hr; [done|]. simpl.
  destruct (GetManifestFileReader o w key ext) as [[o1 w1] res] eqn:Hget.
  specialize (IH o1 w1 (reachable_get _ _ _ _ _ _ _ Hr Hget)).
  destruct (requests o1 w1 key exts) as [[o2 w2] results]. done.
Qed.

(** A request that finds its entry ready opens the recorded file and
    downloads nothing. *)
Lemma getOrcReader_ready o w key ext file :
  orcFilesByKey o !! key = Some file → orcFile.ready file = true →
  ∃ file' res,
    getOrcReader o w key ext
      = (store o key file', emit (orc_Open (orcFile.localFilename file)) w, res) ∧
    orcFile.ready file' = true ∧
    orcFile.localFilename file' = orcFile.localFilename file ∧
    reads_local_file (orcFile.localFilename file) res.
Proof.
  intros Hl Hready. unfold getOrcReader. rewrite Hl.
  destruct (index_of key (Files (manifest o)) 0) as [i|];
    cbn [orcFile.ready negb]; rewrite Hready; cbn [negb orcFile.localFilename];
    (destruct (orc_Open_result ext) as [err|f];
     eexists _, _; (split; [reflexivity|]); repeat split; try done;
     intros r [= <-]; done).
Qed.


Lemma requests_ready key exts :
  ∀ o w file,
    Format (manifest o) = "ORC" →
    orcFilesByKey o !! key = Some file → orcFile.ready file = true →
    ∃ o' w' results file',
      requests o w key exts = (o', w', results) ∧
      orcFilesByKey o' !! key = Some file' ∧
      orcFile.ready file' = true ∧
      orcFile.localFilename file' = orcFile.localFilename file ∧
      download_calls key (trace w') = download_calls key (trace w) ∧
      opened (trace w') = opened (trace w) ++ replicate (length exts) (orcFile.localFilename file) ∧
      Forall (reads_local_file (orcFile.localFilename file)) results.
Proof.
  induction exts as [|ext exts IH]; intros o w file Hfmt Hl Hready.
  - exists o, w, [], file. simpl. rewrite app_nil_r. done.
  - simpl. unfold GetManifestFileReader. rewrite decide_True by done.
    destruct (getOrcReader_ready o w key ext file Hl Hready)
      as (file1 & res & -> & Hready1 & Hname1 & Hres).
    destruct (IH (store o key file1) (emit (orc_Open (orcFile.localFilename file)) w) file1)
      as (o' & w' & results & file' & -> & Hl' & Hready' & Hname' & Hd & Hop & Hall).
    { done. }
    { apply store_lookup. }
    { done. }
    exists o', w', (res :: results), file'. split; [done|]. split; [done|].
    split; [done|]. split; [congruence|]. split.
    { rewrite Hd. simpl. rewrite download_calls_app. simpl. lia. }
    split.
    { rewrite Hop, Hname1. simpl. rewrite opened_app. simpl.
      rewrite <- app_assoc. done. }
    constructor; [done|]. by rewrite <- Hname1.
Qed.

(** ** Failures and unsupported formats *)

(** C7. With a format that is neither "ORC" nor "Parquet",
    [GetManifestFileReader] returns [ErrUnsupportedInventoryFormat] and
    leaves the factory, the disk and the trace of outside calls as they
    were: no download, no cache entry, no temporary file. *)
Theorem unsupported_format_no_effect o w key ext :
  Format (manifest o) ≠ "ORC" → Format (manifest o) ≠ "Parquet" →
  GetManifestFileReader o w key ext = (o, w, (None, Some ErrUnsupportedInventoryFormat)).
Proof.
  intros Horc Hparquet. unfold GetManifestFileReader.
  rewrite decide_False by done. rewrite decide_False by done. done.
Qed.

Lemma unsupported_format_no_effect_witness :
  GetManifestFileReader
    {| manifest := scenario_manifest "CSV"; orcFilesByKey := ∅ |}
    scenario_world "inventory.orc" (answers None None None)
  = ({| manifest := scenario_manifest "CSV"; orcFilesByKey := ∅ |},
     scenario_world, (None, Some ErrUnsupportedInventoryFormat)).
Proof. apply unsupported_format_no_effect; discriminate. Defined.

(** C8. In a reachable state of the ORC factory, when the request has to
    download (no entry for the key, or one that is not ready) and the
    download fails, creating the temporary file or fetching the object,
    [GetManifestFileReader] returns that very error and no reader; the key
    has an entry afterwards that is not ready and records no local file, and
    every ready entry of the cache was there, ready, before the call. *)
Theorem download_failure_leaves_entry_not_ready o w key ext err :
  reachable o w → Format (manifest o) = "ORC" →
  (∀ file, orcFilesByKey o !! key = Some file → orcFile.ready file = false) →
  download_error ext = Some err →
  ∃ o' w' file',
    GetManifestFileReader o w key ext = (o', w', (None, Some err)) ∧
    orcFilesByKey o' !! key = Some file' ∧
    orcFile.ready file' = false ∧ orcFile.localFilename file' = "" ∧
    opened (trace w') = opened (trace w) ∧
    (∀ k file, orcFilesByKey o' !! k = Some file → orcFile.ready file = true →
               orcFilesByKey o !! k = Some file).
Proof.
  intros Hreach Hfmt Hnot Herr. apply reachable_cache_ok in Hreach.
  unfold GetManifestFileReader. rewrite decide_True by done.
  unfold download_error in Herr. unfold getOrcReader, download.
  assert (Hother : ∀ file' k file,
    orcFile.ready file' = false →
    orcFilesByKey (store o key file') !! k = Some file → orcFile.ready file = true →
    orcFilesByKey o !! k = Some file).
  { intros file' k file0 Hf. unfold store. cbn [orcFilesByKey].
    rewrite lookup_insert. case_decide; [intros [= <-]; congruence|done]. }
  destruct (orcFilesByKey o !! key) as [file|] eqn:Hl.
  - pose proof (Hnot file eq_refl) as Hready.
    destruct (Hreach _ _ Hl) as [_ Hname]. specialize (Hname Hready).
    destruct (index_of key (Files (manifest o)) 0) as [i|];
      cbn [orcFile.ready orcFile.key orcFile.idx orcFile.localFilename];
      rewrite ?Hready; cbn [negb];
      (destruct (TempFile_result ext) as [e|f];
       [injection Herr as ->|rewrite Herr];
       eexists _, _, _; (split; [reflexivity|]);
       (split; [apply store_lookup|]);
       cbn [orcFile.ready orcFile.localFilename];
       (split; [done|]); (split; [done|]);
       (split; [simpl; rewrite ?opened_app; simpl; by rewrite ?app_nil_r|]);
       intros k file0; by apply Hother).
  - rewrite !manifest_store.
    destruct (index_of key (Files (manifest o)) 0) as [i|];
      cbn [orcFile.ready orcFile.key orcFile.idx orcFile.localFilename negb];
      rewrite !store_store;
      (destruct (TempFile_result ext) as [e|f];
       [injection Herr as ->|rewrite Herr];
       eexists _, _, _; (split; [reflexivity|]);
       (split; [apply store_lookup|]);
       cbn [orcFile.ready orcFile.localFilename];
       (split; [done|]); (split; [done|]);
       (split; [simpl; rewrite ?opened_app; simpl; by rewrite ?app_nil_r|]);
       intros k file0; by apply Hother).
Qed.

Lemma download_failure_leaves_entry_not_ready_witness :
  ∃ o' w' file',
    GetManifestFileReader scenario_factory scenario_world "inventory.orc"
      (answers (Some (external_error "context canceled")) None None)
      = (o', w', (None, Some (external_error "context canceled"))) ∧
    orcFilesByKey o' !! "inventory.orc" = Some file' ∧
    orcFile.ready file' = false ∧ orcFile.localFilename file' = "".
Proof.
  destruct (download_failure_leaves_entry_not_ready scenario_factory scenario_world
              "inventory.orc"
              (answers (Some (external_error "context canceled")) None None)
              (external_error "context canceled"))
    as (o' & w' & file' & Hget & Hl & Hready & Hname & _).
  - apply reachable_new.
  - reflexivity.
  - intros file. simpl. rewrite lookup_empty. discriminate.
  - reflexivity.
  - exists o', w', file'. repeat split; [exact Hget|exact Hl|exact Hready|exact Hname].
Defined.

(** ** Closing *)

(** C3. The Parquet [Close] does not return: whatever the fuel, the call is
    still running when the fuel is used up; each activation has called
    [ReadStop] once, and the file handle was never closed (the trace holds
    no [PFile_Close], the disk is as it was). *)
Theorem Parquet_Close_never_returns (fuel : nat) (p : ParquetManifestFileReader.t)
    (w : World) :
  let pr := ParquetManifestFileReader.ParquetReader p in
  ParquetManifestFileReader_Close fuel p w
  = still_running
      {| disk := disk w;
         trace := trace w ++ replicate fuel
                    (ReadStop (parquet.PFileBucket pr) (parquet.PFileKey pr)) |}.
Proof.
  revert w. induction fuel as [|fuel IH]; intros w; simpl.
  - rewrite app_nil_r. by destruct w.
  - rewrite IH. simpl. by rewrite <- app_assoc.
Qed.

(** Without an entry for the key of the reader, the clean-up step of [Close]
    panics. *)
Lemma Close_without_entry_panics o w r ext :
  orcFilesByKey o !! OrcManifestFileReader.key r = None →
  OrcManifestFileReader_Close o w r ext
  = Panicked "invalid memory address or nil pointer dereference".
Proof.
  intros Hl. unfold OrcManifestFileReader_Close, clean. simpl. by rewrite Hl.
Qed.

Lemma Close_with_entry o w r ext file :
  orcFilesByKey o !! OrcManifestFileReader.key r = Some file →
  OrcManifestFileReader_Close o w r ext
  = Returned
      ({| manifest := manifest o;
          orcFilesByKey := delete (OrcManifestFileReader.key r) (orcFilesByKey o) |},
       {| disk := disk w ∖ {[orcFile.localFilename file]};
          trace := trace w ++
            [orc_Cursor_Close;
             orc_Reader_Close (orc.name (OrcManifestFileReader.reader r));
             os_Remove (orcFile.localFilename file)] |},
       None).
Proof.
  intros Hl. unfold OrcManifestFileReader_Close, clean. simpl. rewrite Hl.
  by rewrite <- !app_assoc.
Qed.

(** X25. [Close] of an ORC reader whose key has a cache entry returns nil,
    whatever closing the cursor and the decoder answered; afterwards the
    entry of the key is gone, the other entries are as they were, and
    [os.Remove] was called once, after both close steps, on the local file
    that the entry recorded, which is no longer on the disk. *)
Theorem Close_removes_entry_and_file o w r ext file :
  orcFilesByKey o !! OrcManifestFileReader.key r = Some file →
  ∃ o' w',
    OrcManifestFileReader_Close o w r ext = Returned (o', w', None) ∧
    orcFilesByKey o' !! OrcManifestFileReader.key r = None ∧
    (∀ k, k ≠ OrcManifestFileReader.key r → orcFilesByKey o' !! k = orcFilesByKey o !! k) ∧
    (orcFile.localFilename file ∉ disk w') ∧
    trace w' = trace w ++
      [orc_Cursor_Close;
       orc_Reader_Close (orc.name (OrcManifestFileReader.reader r));
       os_Remove (orcFile.localFilename file)].
Proof.
  intros Hl. eexists _, _. split; [by apply Close_with_entry|]. simpl.
  split; [apply lookup_delete_eq|]. split; [intros k Hk; by apply lookup_delete_ne|].
  split; [|done].
  intros [_ Hnot]%elem_of_difference. apply Hnot. by apply elem_of_singleton.
Qed.

Lemma Close_removes_entry_and_file_witness :
  ∃ o' w',
    OrcManifestFileReader_Close materialised_factory materialised_world scenario_reader
      (answers None (Some (external_error "cursor close failed"))
               (Some (external_error "file already closed")))
      = Returned (o', w', None) ∧
    orcFilesByKey o' !! "inventory.orc" = None ∧
    "/tmp/inventory.orc" ∉ disk w'.
Proof.
  destruct (Close_removes_entry_and_file materialised_factory materialised_world
              scenario_reader
              (answers None (Some (external_error "cursor close failed"))
                       (Some (external_error "file already closed")))
              (orcFile.mk "inventory.orc" 0 "/tmp/inventory.orc" true))
    as (o' & w' & Hclose & Hgone & _ & Hdisk & _).
  - reflexivity.
  - exists o', w'. split; [exact Hclose|]. split; [exact Hgone|exact Hdisk].
Defined.

(** C10. A second [Close] of an ORC reader, after the first one removed the
    cache entry of its key, panics on the nil entry in the clean-up step; it
    returns no error value. *)
Theorem second_Close_panics o w r ext ext' file :
  orcFilesByKey o !! OrcManifestFileReader.key r = Some file →
  ∃ o' w',
    OrcManifestFileReader_Close o w r ext = Returned (o', w', None) ∧
    orcFilesByKey o' !! OrcManifestFileReader.key r = None ∧
    OrcManifestFileReader_Close o' w' r ext'
    = Panicked "invalid memory address or nil pointer dereference".
Proof.
  intros Hl. eexists _, _. split; [by apply Close_with_entry|].
  assert (Hgone : delete (OrcManifestFileReader.key r) (orcFilesByKey o)
                    !! OrcManifestFileReader.key r = None) by apply lookup_delete_eq.
  split; [done|]. by apply Close_without_entry_panics.
Qed.

Lemma second_Close_panics_witness :
  ∃ o' w',
    OrcManifestFileReader_Close materialised_factory materialised_world scenario_reader
      (answers None None None) = Returned (o', w', None) ∧
    OrcManifestFileReader_Close o' w' scenario_reader (answers None None None)
    = Panicked "invalid memory address or nil pointer dereference".
Proof.
  destruct (second_Close_panics materialised_factory materialised_world scenario_reader
              (answers None None None) (answers None None None)
              (orcFile.mk "inventory.orc" 0 "/tmp/inventory.orc" true))
    as (o' & w' & Hfirst & _ & Hsecond).
  - reflexivity.
  - exists o', w'. split; [exact Hfirst|exact Hsecond].
Defined.

(** * Further properties of the readers *)

(** ** Batches *)

(** X1. A [Read] into a slice of length N, with at least N records pending
    in stripes that are not empty and convertible, returns nil, puts the
    next N records into the slice in file order, across stripe boundaries,
    and leaves the cursor N records further. *)
Theorem Read_full_batch (r : OrcManifestFileReader.t) (dst objs : list InventoryObject) :
  stripes_nonempty (omfr_c r) →
  0 < length dst ≤ length (orc.pending (omfr_c r)) →
  decoded (take (length dst) (orc.pending (omfr_c r))) objs →
  ∃ r', Read r dst = Some (Returned (r', objs, None)) ∧
        orc.pending (omfr_c r') = drop (length dst) (orc.pending (omfr_c r)).
Proof.
  intros Hne Hlen Hdec.
  destruct (Read_fill r dst objs Hne Hlen Hdec) as (r' & Hr & Hp & _).
  by exists r'.
Qed.

Lemma Read_full_batch_witness :
  ∃ r', Read scenario_reader (replicate 4 zero_object)
          = Some (Returned (r', scenario_object <$> [1; 2; 3; 4]%Z, None)) ∧
        orc.pending (omfr_c r') = [scenario_row 5].
Proof.
  destruct (Read_full_batch scenario_reader (replicate 4 zero_object)
              (scenario_object <$> [1; 2; 3; 4]%Z)) as (r' & Hr & Hp).
  - repeat constructor; discriminate.
  - simpl. lia.
  - repeat constructor.
  - exists r'. split; [exact Hr|exact Hp].
Defined.

(** When the length asked for cannot be met by the records pending, the loop
    uses them up and ends in [return nil], with nothing left in the
    cursor. *)
Lemma Read_loop_drain :
  ∀ rows fuel c res num objs,
    orc.pending c = rows → stripes_nonempty c → length rows < fuel →
    decoded rows objs →
    num ≤ length res ∨ length res + length rows < num →
    ∃ c', Read_loop fuel c res num = loop_return_nil c' ∧
          orc.stream c' = [] ∧ orc.nextStripes c' = [].
Proof.
  induction rows as [|v rest IH]; intros fuel c res num objs Hp Hne Hfuel Hdec Hnum.
  - destruct fuel as [|fuel]; [simpl in Hfuel; lia|].
    exists c. rewrite Read_loop_exhausted by done. split; [done|].
    destruct c as [st ns nv]. unfold orc.pending in Hp. simpl in *.
    apply app_eq_nil in Hp as [-> Hc]. split; [done|].
    by apply concat_nonempty_nil.
  - destruct (Read_loop_fetch c v rest Hne Hp) as (c' & Hp' & Hne' & Hstep).
    destruct fuel as [|fuel]; [lia|]. rewrite Hstep.
    apply Forall2_cons_inv_l in Hdec as (o & objs' & Ho & Hrest & ->).
    rewrite Ho. simpl in Hnum, Hfuel.
    rewrite decide_False by (rewrite length_app; simpl; lia).
    apply (IH fuel c' (res ++ [o]) num objs'); try done; [lia|].
    rewrite length_app. simpl. lia.
Qed.

(** X2. With stripes that are not empty and pending records that are
    convertible, a [Read] into a slice longer than the number of records
    pending consumes all of them, returns nil and hands the slice back as
    it was: the records consumed are in no slice, and every later [Read]
    returns nil with its slice untouched. *)
Theorem Read_short_batch_is_dropped (r : OrcManifestFileReader.t)
    (dst objs : list InventoryObject) :
  stripes_nonempty (omfr_c r) →
  length (orc.pending (omfr_c r)) < length dst →
  decoded (orc.pending (omfr_c r)) objs →
  ∃ r', Read r dst = Some (Returned (r', dst, None)) ∧
        orc.pending (omfr_c r') = [] ∧
        ∀ dst', Read r' dst' = Some (Returned (r', dst', None)).
Proof.
  intros Hne Hlen Hdec. unfold Read.
  destruct (Read_loop_drain (orc.pending (omfr_c r)) (S (rows_left (omfr_c r)))
              (omfr_c r) [] (length dst) objs) as (c' & Hr & Hst & Hns); try done.
  { unfold rows_left. lia. }
  { right. simpl. lia. }
  rewrite Hr. exists (OrcManifestFileReader.with_c r c').
  destruct c' as [st ns nv]. simpl in Hst, Hns. subst st ns.
  split; [done|]. split; [done|]. intros dst'. reflexivity.
Qed.

Lemma Read_short_batch_is_dropped_witness :
  ∃ r', Read scenario_reader (replicate 8 zero_object)
          = Some (Returned (r', replicate 8 zero_object, None)) ∧
        orc.pending (omfr_c r') = [].
Proof.
  destruct (Read_short_batch_is_dropped scenario_reader (replicate 8 zero_object)
              (scenario_object <$> [1; 2; 3; 4; 5]%Z)) as (r' & Hr & Hp & _).
  - repeat constructor; discriminate.
  - simpl. lia.
  - repeat constructor.
  - exists r'. split; [exact Hr|exact Hp].
Defined.

(** X3. With stripes that are not empty and pending records that are
    convertible, a [Read] into an empty slice never meets its length: it
    consumes every record pending and returns nil with the empty slice. *)
Theorem Read_empty_slice_drains (r : OrcManifestFileReader.t) (objs : list InventoryObject) :
  stripes_nonempty (omfr_c r) →
  decoded (orc.pending (omfr_c r)) objs →
  ∃ r', Read r [] = Some (Returned (r', [], None)) ∧
        orc.pending (omfr_c r') = [].
Proof.
  intros Hne Hdec. unfold Read.
  destruct (Read_loop_drain (orc.pending (omfr_c r)) (S (rows_left (omfr_c r)))
              (omfr_c r) [] 0 objs) as (c' & Hr & Hst & Hns); try done.
  { unfold rows_left. lia. }
  { left. simpl. lia. }
  simpl length. rewrite Hr. exists (OrcManifestFileReader.with_c r c').
  split; [done|]. unfold orc.pending. simpl. by rewrite Hst, Hns.
Qed.

Lemma Read_empty_slice_drains_witness :
  ∃ r', Read scenario_reader [] = Some (Returned (r', [], None)) ∧
        orc.pending (omfr_c r') = [].
Proof.
  destruct (Read_empty_slice_drains scenario_reader
              (scenario_object <$> [1; 2; 3; 4; 5]%Z)) as (r' & Hr & Hp).
  - repeat constructor; discriminate.
  - repeat constructor.
  - exists r'. split; [exact Hr|exact Hp].
Defined.

(** The loop is left through [break] only with a result of the length
    asked for. *)
Lemma Read_loop_break_length :
  ∀ fuel c res num c' res',
    Read_loop fuel c res num = loop_break c' res' → length res' = num.
Proof.
  induction fuel as [|fuel IH]; intros c res num c' res' Hloop; [done|].
  destruct c as [st ns nv].
  assert (Hstep : ∀ st' ns' v,
    match inventoryObjectFromOrc v with
    | Panicked msg => loop_panic msg
    | Returned o =>
        if decide (length (res ++ [o]) = num)
        then loop_break (orc.mkCursor st' ns' v) (res ++ [o])
        else Read_loop fuel (orc.mkCursor st' ns' v) (res ++ [o]) num
    end = loop_break c' res' → length res' = num).
  { intros st' ns' v. destruct (inventoryObjectFromOrc v); [|done].
    case_decide; [by intros [= _ <-]|]. apply IH. }
  destruct st as [|v st]; simpl in Hloop.
  - destruct ns as [|s ss]; simpl in Hloop; [done|].
    destruct s as [|v s]; simpl in Hloop; [done|]. by eapply Hstep.
  - by eapply Hstep.
Qed.

(** X4. Whenever [Read] returns, the error is nil, the slice of the caller
    has the length it had before, and the reader keeps its decoder and its
    key: a caller never sees a slice shorter than the one it passed, so the
    end of the data does not show in the slice. *)
Theorem Read_keeps_slice_length (r r' : OrcManifestFileReader.t)
    (dst out : list InventoryObject) (err : option error) :
  Read r dst = Some (Returned (r', out, err)) →
  length out = length dst ∧ err = None ∧
  OrcManifestFileReader.reader r' = OrcManifestFileReader.reader r ∧
  OrcManifestFileReader.key r' = OrcManifestFileReader.key r ∧
  GetNumRows r' = GetNumRows r.
Proof.
  unfold Read.
  destruct (Read_loop _ _ _ _) as [c' res'|c'|msg|] eqn:Hloop; try done.
  - intros [= <- <- <-]. apply Read_loop_break_length in Hloop. done.
  - intros [= <- <- <-]. done.
Qed.

Lemma Read_keeps_slice_length_witness :
  ∃ r' out err,
    Read scenario_reader (replicate 2 zero_object) = Some (Returned (r', out, err)) ∧
    length out = 2 ∧ err = None.
Proof.
  destruct (Read scenario_reader (replicate 2 zero_object))
    as [[[[r' out] err]|msg]|] eqn:Hread; [|discriminate Hread|discriminate Hread].
  destruct (Read_keeps_slice_length scenario_reader r' (replicate 2 zero_object) out err Hread)
    as (Hlen & Herr & _).
  exists r', out, err. split; [reflexivity|]. split; [exact Hlen|exact Herr].
Defined.

(** ** Records that do not convert *)

(** X5. [inventoryObjectFromOrc] returns exactly for the rows that start
    with a string, a string, an [int64] and a time, with the object made of
    these four values; for every other row (too short, a nil size, another
    type) it panics. *)
Theorem inventoryObjectFromOrc_returns_iff (rowData : orc.RowData) (o : InventoryObject) :
  (inventoryObjectFromOrc rowData = Returned o ↔
   ∃ b k s t rest,
     rowData = orc.VString b :: orc.VString k :: orc.VInt64 s :: orc.VTime t :: rest ∧
     o = {| Bucket := b; Key := k; Size := Some s; LastModified := Some t |}) ∧
  (inventoryObjectFromOrc rowData = Panicked "interface conversion" ↔
   ¬ ∃ b k s t rest,
     rowData = orc.VString b :: orc.VString k :: orc.VInt64 s :: orc.VTime t :: rest).
Proof.
  unfold inventoryObjectFromOrc. split; split.
  - destruct rowData as [|[] [|[] [|[] [|[] rest]]]]; simpl; try done.
    intros [= <-]. by eexists _, _, _, _, _.
  - intros (b & k & s & t & rest & -> & ->). done.
  - intros Hp (b & k & s & t & rest & ->). done.
  - intros Hn. destruct rowData as [|[] [|[] [|[] [|[] rest]]]]; simpl; try done.
    exfalso. apply Hn. by eexists _, _, _, _, _.
Qed.

(** A record that does not convert makes the loop panic when the loop
    reaches it. *)
Lemma Read_loop_panics :
  ∀ good fuel c res num objs bad rest msg,
    orc.pending c = good ++ bad :: rest → stripes_nonempty c →
    length good < fuel → decoded good objs →
    length res + length good < num →
    inventoryObjectFromOrc bad = Panicked msg →
    Read_loop fuel c res num = loop_panic msg.
Proof.
  induction good as [|v good IH];
    intros fuel c res num objs bad rest msg Hp Hne Hfuel Hdec Hnum Hbad;
    (destruct fuel as [|fuel]; [simpl in Hfuel; lia|]).
  - destruct (Read_loop_fetch c bad rest Hne Hp) as (c' & _ & _ & Hstep).
    rewrite Hstep, Hbad. done.
  - destruct (Read_loop_fetch c v (good ++ bad :: rest) Hne Hp) as (c' & Hp' & Hne' & Hstep).
    rewrite Hstep.
    apply Forall2_cons_inv_l in Hdec as (o & objs' & Ho & Hrest & ->).
    rewrite Ho. simpl in Hnum, Hfuel.
    rewrite decide_False by (rewrite length_app; simpl; lia).
    apply (IH fuel c' (res ++ [o]) num objs' bad rest msg); try done; [lia|].
    rewrite length_app. simpl. lia.
Qed.

(** X6. When one of the records a [Read] has to convert to fill its slice
    does not convert, the [Read] panics: the records converted before it in
    this call reach no slice and no error value is returned. *)
Theorem Read_panics_on_bad_record (r : OrcManifestFileReader.t)
    (dst objs : list InventoryObject) (good rest : list orc.RowData)
    (bad : orc.RowData) (msg : string) :
  stripes_nonempty (omfr_c r) →
  orc.pending (omfr_c r) = good ++ bad :: rest →
  decoded good objs → length good < length dst →
  inventoryObjectFromOrc bad = Panicked msg →
  Read r dst = Some (Panicked msg).
Proof.
  intros Hne Hp Hdec Hlen Hbad. unfold Read.
  rewrite (Read_loop_panics good _ (omfr_c r) [] (length dst) objs bad rest msg); try done.
  unfold rows_left. rewrite Hp, length_app. simpl. lia.
Qed.

Lemma Read_panics_on_bad_record_witness :
  Read delete_marker_reader (replicate 2 zero_object)
  = Some (Panicked "interface conversion").
Proof.
  apply (Read_panics_on_bad_record _ _ [scenario_object 1] [scenario_row 1] [scenario_row 3]
           delete_marker_row).
  - repeat constructor; discriminate.
  - reflexivity.
  - repeat constructor.
  - simpl. lia.
  - reflexivity.
Defined.

(** ** Skipping from any position *)

(** The inner loop when the count cannot be met within the stripe: the
    stripe is used up. *)
Lemma SkipRows_rows_miss :
  ∀ st fuel ns nv skipped i,
    (0 ≤ skipped)%Z → (skipped + Z.of_nat (length st) < 2 ^ 63)%Z →
    (i ≤ skipped ∨ skipped + Z.of_nat (length st) < i)%Z → length st < fuel →
    ∃ c', SkipRows_rows fuel (orc.mkCursor st ns nv) skipped i
            = skip_stripe_done c' (skipped + Z.of_nat (length st)) ∧
          orc.stream c' = [] ∧ orc.nextStripes c' = ns.
Proof.
  induction st as [|v st IH]; intros fuel ns nv skipped i Hs Hmax Hmiss Hfuel;
    (destruct fuel as [|fuel]; [simpl in Hfuel; lia|]).
  - exists (orc.mkCursor [] ns nv). simpl. split; [|done]. f_equal. lia.
  - simpl length in *. simpl. rewrite wrap64_small by lia.
    rewrite decide_False by lia.
    destruct (IH fuel ns v (skipped + 1)%Z i) as (c' & Hc' & Hst & Hns); [lia|lia|lia|lia|].
    exists c'. rewrite Hc'. split; [|done]. f_equal. lia.
Qed.

(** The outer loop when the count cannot be met by the stripes to come: it
    ends with the failing [Stripes], after which the cursor holds nothing. *)
Lemma SkipRows_stripes_miss :
  ∀ ns fuel st nv skipped i,
    (0 ≤ skipped)%Z → (skipped + Z.of_nat (length (concat ns)) < 2 ^ 63)%Z →
    (i ≤ skipped ∨ skipped + Z.of_nat (length (concat ns)) < i)%Z → length ns < fuel →
    ∃ c', SkipRows_stripes fuel (orc.mkCursor st ns nv) skipped i
            = Some (c', Some (errors_New "no more rows to skip")) ∧
          orc.nextStripes c' = [] ∧ orc.stream c' = [].
Proof.
  induction ns as [|s ss IH]; intros fuel st nv skipped i Hs Hmax Hmiss Hfuel;
    (destruct fuel as [|fuel]; [simpl in Hfuel; lia|]).
  - by exists (orc.mkCursor [] [] nv).
  - cbn [SkipRows_stripes orc.Stripes orc.nextStripes orc.stream orc.nextVal].
    simpl concat in *. rewrite length_app in *.
    destruct (SkipRows_rows_miss s (S (length s)) ss nv skipped i)
      as (c1 & Hc1 & Hst1 & Hns1); [lia|lia|lia|lia|].
    rewrite Hc1. destruct c1 as [st1 ns1 nv1]. simpl in Hst1, Hns1. subst st1 ns1.
    destruct (IH fuel [] nv1 (skipped + Z.of_nat (length s))%Z i)
      as (c' & Hc' & Hns' & Hst'); [lia|lia|lia|simpl in Hfuel; lia|].
    exists c'. by rewrite Hc'.
Qed.

(** X7. [SkipRows(n)] with [n > 0] counts the records of the stripes that
    are not prepared yet, wherever the cursor stands: when these hold at
    least [n] records it returns nil and what is pending afterwards are the
    records after the first [n] of them; what was left of the current
    stripe is passed over without being counted. *)
Theorem SkipRows_counts_following_stripes (r : OrcManifestFileReader.t) (n : Z) :
  (0 < n < 2 ^ 63)%Z →
  (n ≤ Z.of_nat (length (concat (orc.nextStripes (omfr_c r)))))%Z →
  ∃ r', SkipRows r n = Some (r', None) ∧
        orc.pending (omfr_c r')
        = drop (Z.to_nat n) (concat (orc.nextStripes (omfr_c r))).
Proof.
  intros Hn Hle. destruct r as [rd [st ns nv] key]. unfold SkipRows.
  cbn [OrcManifestFileReader.c orc.nextStripes] in *.
  rewrite decide_False by lia.
  destruct (SkipRows_stripes_spec ns (S (length ns)) st nv 0 n) as (c' & Hc');
    [lia|lia|lia|].
  rewrite Z.sub_0_r in Hc'. rewrite decide_True in Hc' by done.
  destruct Hc' as (-> & Hp & _). by eexists.
Qed.

Lemma SkipRows_counts_following_stripes_witness :
  ∃ r', SkipRows scenario_reader_after_one 2 = Some (r', None) ∧
        orc.pending (omfr_c r') = [].
Proof.
  destruct (SkipRows_counts_following_stripes scenario_reader_after_one 2)
    as (r' & Hr & Hp).
  - lia.
  - simpl. lia.
  - exists r'. split; [exact Hr|exact Hp].
Defined.

(** X8. For an [int64] count [n] and fewer than [2^63] records in the
    stripes not prepared yet: [SkipRows(n)] with a negative [n], or with
    more than these stripes hold, returns the error "no more rows to skip"
    after it went through all of them; nothing is pending afterwards, and
    every later [Read] returns nil with its slice untouched. *)
Theorem SkipRows_failure_uses_up_stripes (r : OrcManifestFileReader.t) (n : Z) :
  (- 2 ^ 63 ≤ n < 2 ^ 63)%Z →
  (Z.of_nat (length (concat (orc.nextStripes (omfr_c r)))) < 2 ^ 63)%Z →
  (n < 0 ∨ Z.of_nat (length (concat (orc.nextStripes (omfr_c r)))) < n)%Z →
  ∃ r', SkipRows r n = Some (r', Some (errors_New "no more rows to skip")) ∧
        orc.pending (omfr_c r') = [] ∧
        ∀ dst, Read r' dst = Some (Returned (r', dst, None)).
Proof.
  intros Hn Hmax Hmiss. destruct r as [rd [st ns nv] key]. unfold SkipRows.
  cbn [OrcManifestFileReader.c orc.nextStripes orc.stream] in *.
  rewrite decide_False by lia.
  destruct (SkipRows_stripes_miss ns (S (length ns)) st nv 0 n) as (c' & Hc' & Hns & Hst);
    [lia|lia|lia|lia|].
  rewrite Hc'. destruct c' as [st' ns' nv']. simpl in Hns, Hst. subst st' ns'.
  eexists. split; [reflexivity|]. split; [reflexivity|]. intros dst. reflexivity.
Qed.

Lemma SkipRows_failure_uses_up_stripes_witness :
  (∃ r', SkipRows scenario_reader (-1)
           = Some (r', Some (errors_New "no more rows to skip")) ∧
         orc.pending (omfr_c r') = []) ∧
  (∃ r', SkipRows scenario_reader_after_one 3
           = Some (r', Some (errors_New "no more rows to skip")) ∧
         orc.pending (omfr_c r') = []).
Proof.
  split.
  - destruct (SkipRows_failure_uses_up_stripes scenario_reader (-1))
      as (r' & Hr & Hp & _); [lia|simpl; lia|lia|].
    exists r'. split; [exact Hr|exact Hp].
  - destruct (SkipRows_failure_uses_up_stripes scenario_reader_after_one 3)
      as (r' & Hr & Hp & _); [lia|simpl; lia|simpl; lia|].
    exists r'. split; [exact Hr|exact Hp].
Defined.

(** X9. [Read] and [SkipRows] come back for every reader, slice and count:
    their loops end, since every turn that stays in a loop consumes a record
    or a stripe. *)
Theorem Read_and_SkipRows_come_back (r : OrcManifestFileReader.t)
    (dst : list InventoryObject) (i : Z) :
  is_Some (Read r dst) ∧ is_Some (SkipRows r i).
Proof. split; [apply Read_terminates|apply SkipRows_terminates]. Qed.

(** * Further properties of the factory *)

(** ** Parquet requests *)

(** X10. With the format "Parquet", [GetManifestFileReader] leaves the
    factory and the disk as they are and downloads nothing: it opens the S3
    object, then the Parquet reader on it. A failure of the first is
    returned wrapped as "failed to create parquet file reader", without the
    second being tried; a failure of the second wrapped as "failed to
    create parquet reader"; otherwise the reader of the bucket and key is
    returned. *)
Theorem Parquet_request_materialises_nothing o w key ext :
  Format (manifest o) = "Parquet" →
  let bucket := inventoryBucket (manifest o) in
  ∃ w' res,
    GetManifestFileReader o w key ext = (o, w', res) ∧
    disk w' = disk w ∧
    trace w' = trace w ++ NewS3FileReaderWithClient bucket key ::
                 match NewS3FileReaderWithClient_result ext with
                 | Some _ => []
                 | None => [NewParquetReader bucket key]
                 end ∧
    res = match NewS3FileReaderWithClient_result ext, NewParquetReader_result ext with
          | Some err, _ =>
              (None, Some (fmt_Errorf_w "failed to create parquet file reader: " err))
          | None, Some err =>
              (None, Some (fmt_Errorf_w "failed to create parquet reader: " err))
          | None, None =>
              (Some (ParquetManifestFileReaderOf
                       (ParquetManifestFileReader.mk
                          {| parquet.PFileBucket := bucket; parquet.PFileKey := key |})),
               None)
          end.
Proof.
  intros Hfmt bucket. unfold GetManifestFileReader, getParquetReader.
  rewrite Hfmt. rewrite decide_False by discriminate. rewrite decide_True by done.
  fold bucket.
  destruct (NewS3FileReaderWithClient_result ext) as [e1|];
    [|destruct (NewParquetReader_result ext) as [e2|]];
    eexists _, _; (split; [reflexivity|]); simpl; rewrite <- ?app_assoc; done.
Qed.

Lemma Parquet_request_materialises_nothing_witness :
  ∃ w',
    GetManifestFileReader
      {| manifest := scenario_manifest "Parquet"; orcFilesByKey := ∅ |}
      scenario_world "inventory.parquet"
      (parquet_collaborators (Some (external_error "NoSuchKey")) None)
    = ({| manifest := scenario_manifest "Parquet"; orcFilesByKey := ∅ |}, w',
       (None, Some (fmt_Errorf_w "failed to create parquet file reader: "
                      (external_error "NoSuchKey")))) ∧
    trace w' = [NewS3FileReaderWithClient "inventory" "inventory.parquet"].
Proof.
  destruct (Parquet_request_materialises_nothing
              {| manifest := scenario_manifest "Parquet"; orcFilesByKey := ∅ |}
              scenario_world "inventory.parquet"
              (parquet_collaborators (Some (external_error "NoSuchKey")) None))
    as (w' & res & Hget & _ & Htrace & Hres).
  - reflexivity.
  - exists w'. split; [rewrite Hget, Hres; reflexivity|exact Htrace].
Defined.

(** ** What a request returns and what it leaves behind *)

Ltac not_in_list :=
  let H := fresh in
  intros H;
  repeat (apply elem_of_cons in H as [H|H]; [discriminate H|]);
  by apply elem_of_nil in H.

(** What [getOrcReader] does to the world: at most one file is created,
    calls are added to the trace, none of them [os.Remove]. *)
Lemma getOrcReader_world o w key ext :
  ∃ added,
    disk w ⊆ disk (getOrcReader o w key ext).1.2 ∧
    trace (getOrcReader o w key ext).1.2 = trace w ++ added ∧
    ∀ name, os_Remove name ∉ added.
Proof.
  getOrcReader_cases; simpl; rewrite <- ?app_assoc;
    eexists; (split; [set_solver|]); (split; [simpl; reflexivity|]);
    intros name; not_in_list.
Qed.

Lemma getOrcReader_reader_xor_error o w key ext :
  (is_Some (getOrcReader o w key ext).2.1 ∧ (getOrcReader o w key ext).2.2 = None) ∨
  ((getOrcReader o w key ext).2.1 = None ∧ is_Some (getOrcReader o w key ext).2.2).
Proof.
  getOrcReader_cases; simpl; (by left) || (by right).
Qed.

(** X11. Every request returns either a reader and a nil error, or no
    reader and an error: never both, never neither. *)
Theorem GetManifestFileReader_reader_xor_error o w key ext :
  (is_Some (GetManifestFileReader o w key ext).2.1 ∧
   (GetManifestFileReader o w key ext).2.2 = None) ∨
  ((GetManifestFileReader o w key ext).2.1 = None ∧
   is_Some (GetManifestFileReader o w key ext).2.2).
Proof.
  unfold GetManifestFileReader. repeat case_decide.
  - apply getOrcReader_reader_xor_error.
  - unfold getParquetReader. repeat case_match; simpl; (by left) || (by right).
  - by right.
Qed.

(** X12. A request removes nothing: the manifest is kept, the entries of
    the other keys are untouched, an entry of the key requested stays in the
    cache, every file on the disk stays there, and the calls made are added
    to the trace, [os.Remove] not being one of them. *)
Theorem GetManifestFileReader_removes_nothing o w key ext :
  let o' := (GetManifestFileReader o w key ext).1.1 in
  let w' := (GetManifestFileReader o w key ext).1.2 in
  manifest o' = manifest o ∧
  (∀ k, k ≠ key → orcFilesByKey o' !! k = orcFilesByKey o !! k) ∧
  (is_Some (orcFilesByKey o !! key) → is_Some (orcFilesByKey o' !! key)) ∧
  disk w ⊆ disk w' ∧
  ∃ added, trace w' = trace w ++ added ∧ ∀ name, os_Remove name ∉ added.
Proof.
  unfold GetManifestFileReader. repeat case_decide.
  - destruct (getOrcReader_entry o w key ext) as (file' & Ho' & _).
    destruct (getOrcReader_world o w key ext) as (added & Hdisk & Htrace & Hrm).
    cbn zeta. rewrite Ho'. split; [done|]. split.
    { intros k Hk. unfold store. simpl. by rewrite lookup_insert_ne. }
    split; [intros _; rewrite store_lookup; by eexists|].
    split; [done|]. by exists added.
  - rewrite getParquetReader_factory. cbn zeta. split; [done|]. split; [done|].
    split; [done|]. unfold getParquetReader.
    repeat case_match; simpl; rewrite <- ?app_assoc;
      (split; [done|]); eexists; (split; [reflexivity|]); intros name; not_in_list.
  - cbn zeta. simpl. split; [done|]. split; [done|]. split; [done|]. split; [done|].
    exists []. rewrite app_nil_r. split; [done|]. intros name; not_in_list.
Qed.

(** ** The index in the manifest *)

Lemma index_of_Some key files :
  ∀ start idx,
    index_of key files start = Some idx →
    ∃ i f, idx = (start + Z.of_nat i)%Z ∧ files !! i = Some f ∧
           ManifestFile.Key f = key ∧
           ∀ j g, j < i → files !! j = Some g → ManifestFile.Key g ≠ key.
Proof.
  induction files as [|f files IH]; intros start idx; simpl; [done|].
  case_decide as Hf.
  - intros [= <-]. exists 0, f. split; [lia|]. split; [done|]. split; [done|].
    intros; lia.
  - intros Hidx. destruct (IH _ _ Hidx) as (i & g & -> & Hl & Hk & Hfirst).
    exists (S i), g. split; [lia|]. split; [done|]. split; [done|].
    intros [|j] h Hj; simpl; [by intros [= <-]|]. apply Hfirst. lia.
Qed.

Lemma index_of_None key files :
  ∀ start, index_of key files start = None ↔ ∀ f, f ∈ files → ManifestFile.Key f ≠ key.
Proof.
  induction files as [|f files IH]; intros start; simpl.
  - split; [|done]. intros _ f Hf. by apply elem_of_nil in Hf.
  - case_decide as Hf.
    + split; [done|]. intros H. exfalso. apply (H f); [left|done].
    + rewrite IH. split.
      * intros H g [->|Hg]%elem_of_cons; [done|by apply H].
      * intros H g Hg. apply H. by right.
Qed.

(** After [getOrcReader] the entry of the key holds the index found by the
    scan of the manifest, or its former index when the scan finds none. *)
Lemma getOrcReader_entry_idx o w key ext :
  ∃ file',
    orcFilesByKey (getOrcReader o w key ext).1.1 !! key = Some file' ∧
    orcFile.idx file'
    = default (orcFile.idx (entry_for o key)) (index_of key (Files (manifest o)) 0).
Proof.
  unfold getOrcReader, entry_for.
  destruct (orcFilesByKey o !! key) as [file|] eqn:Hl; rewrite ?manifest_store;
    (destruct (index_of key (Files (manifest o)) 0) as [idx|] eqn:Hidx;
     getOrcReader_cases; eexists; (split; [apply store_lookup|]); done).
Qed.

(** X13. After an ORC request the cache entry of the key records the
    position of the first file of the manifest that has this key. A key
    that the manifest does not list is not refused: its entry is created
    all the same and keeps the index it had, 0 for a new entry. *)
Theorem ORC_request_records_index o w key ext :
  Format (manifest o) = "ORC" →
  ∃ file',
    orcFilesByKey (GetManifestFileReader o w key ext).1.1 !! key = Some file' ∧
    (∀ i f,
       Files (manifest o) !! i = Some f → ManifestFile.Key f = key →
       (∀ j g, j < i → Files (manifest o) !! j = Some g → ManifestFile.Key g ≠ key) →
       orcFile.idx file' = Z.of_nat i) ∧
    ((∀ f, f ∈ Files (manifest o) → ManifestFile.Key f ≠ key) →
     orcFile.idx file' = orcFile.idx (entry_for o key)).
Proof.
  intros Hfmt. unfold GetManifestFileReader. rewrite decide_True by done.
  destruct (getOrcReader_entry_idx o w key ext) as (file' & Hl & Hidx).
  exists file'. split; [done|]. rewrite Hidx. split.
  - intros i f Hi Hk Hfirst.
    destruct (index_of key (Files (manifest o)) 0) as [idx|] eqn:Hio; simpl.
    + apply index_of_Some in Hio as (i' & f' & -> & Hi' & Hk' & Hfirst').
      destruct (Nat.lt_trichotomy i i') as [Hlt|[->|Hgt]]; [|lia|].
      * by destruct (Hfirst' i f Hlt Hi).
      * by destruct (Hfirst i' f' Hgt Hi').
    + exfalso. eapply index_of_None; [exact Hio| |exact Hk].
      by eapply list_elem_of_lookup_2.
  - intros Hnone. apply index_of_None with (start := 0%Z) in Hnone. by rewrite Hnone.
Qed.

Lemma ORC_request_records_index_witness :
  ∃ file',
    orcFilesByKey
      (GetManifestFileReader
         {| manifest := {| Format := "ORC"; inventoryBucket := "inventory";
                           Files := [ManifestFile.mk "a.orc"; ManifestFile.mk "inventory.orc";
                                     ManifestFile.mk "inventory.orc"] |};
            orcFilesByKey := ∅ |}
         scenario_world "inventory.orc" (answers None None None)).1.1
      !! "inventory.orc" = Some file' ∧
    orcFile.idx file' = 1%Z.
Proof.
  destruct (ORC_request_records_index
              {| manifest := {| Format := "ORC"; inventoryBucket := "inventory";
                                Files := [ManifestFile.mk "a.orc"; ManifestFile.mk "inventory.orc";
                                          ManifestFile.mk "inventory.orc"] |};
                 orcFilesByKey := ∅ |}
              scenario_world "inventory.orc" (answers None None None))
    as (file' & Hl & Hidx & _).
  - reflexivity.
  - exists file'. split; [exact Hl|].
    apply (Hidx 1 (ManifestFile.mk "inventory.orc")); [reflexivity|reflexivity|].
    intros [|j] g Hj; [|lia]. intros [= <-]. discriminate.
Defined.

(** ** The paths through [getOrcReader] *)

(** The entry is ready: the local file is opened, nothing else happens. *)
Lemma getOrcReader_when_ready o w key ext :
  orcFile.ready (entry_for o key) = true →
  getOrcReader o w key ext
  = (store o key (scanned o key),
     emit (orc_Open (orcFile.localFilename (entry_for o key))) w,
     opened_reader ext (orcFile.localFilename (entry_for o key)) key).
Proof.
  unfold getOrcReader, scanned, opened_reader, entry_for.
  destruct (orcFilesByKey o !! key) as [[k i lf rd]|] eqn:Hl; cbn [default]; [|done].
  simpl. intros ->.
  destruct (index_of key (Files (manifest o)) 0) as [idx|]; simpl;
    by destruct (orc_Open_result ext).
Qed.

(** The entry is not ready and the download succeeds. *)
Lemma getOrcReader_when_downloaded o w key ext f :
  orcFile.ready (entry_for o key) = false →
  TempFile_result ext = inr f → DownloadWithContext_result ext = None →
  getOrcReader o w key ext
  = (store o key
       (orcFile.mk (orcFile.key (scanned o key)) (orcFile.idx (scanned o key)) f true),
     {| disk := disk w ∪ {[f]};
        trace := trace w ++ [ioutil_TempFile key;
                             DownloadWithContext (inventoryBucket (manifest o)) key f;
                             orc_Open f] |},
     opened_reader ext f key).
Proof.
  unfold getOrcReader, download, scanned, opened_reader, entry_for.
  intros Hready Ht Hd. rewrite Ht, Hd.
  destruct (orcFilesByKey o !! key) as [[k i lf rd]|] eqn:Hl; cbn [default] in *;
    simpl in Hready; subst; rewrite ?manifest_store;
    (destruct (index_of key (Files (manifest o)) 0) as [idx|]; simpl;
     rewrite ?store_store;
     destruct (orc_Open_result ext); unfold emit; simpl; rewrite <- ?app_assoc; done).
Qed.

(** The entry is not ready and the download fails after the temporary file
    was created. *)
Lemma getOrcReader_when_download_fails o w key ext f err :
  orcFile.ready (entry_for o key) = false →
  TempFile_result ext = inr f → DownloadWithContext_result ext = Some err →
  getOrcReader o w key ext
  = (store o key (scanned o key),
     {| disk := disk w ∪ {[f]};
        trace := trace w ++ [ioutil_TempFile key;
                             DownloadWithContext (inventoryBucket (manifest o)) key f] |},
     (None, Some err)).
Proof.
  unfold getOrcReader, download, scanned, entry_for.
  intros Hready Ht Hd. rewrite Ht, Hd.
  destruct (orcFilesByKey o !! key) as [[k i lf rd]|] eqn:Hl; cbn [default] in *;
    simpl in Hready; subst; rewrite ?manifest_store;
    (destruct (index_of key (Files (manifest o)) 0) as [idx|]; simpl;
     rewrite ?store_store; unfold emit; simpl; rewrite <- ?app_assoc; done).
Qed.

Lemma entry_for_None o key :
  orcFilesByKey o !! key = None → entry_for o key = orcFile.mk key 0 "" false.
Proof. unfold entry_for. by intros ->. Qed.

Lemma entry_for_Some o key file :
  orcFilesByKey o !! key = Some file → entry_for o key = file.
Proof. unfold entry_for. by intros ->. Qed.

Lemma entry_for_store o key file : entry_for (store o key file) key = file.
Proof. unfold entry_for. by rewrite store_lookup. Qed.

Lemma ORC_request o w key ext :
  Format (manifest o) = "ORC" →
  GetManifestFileReader o w key ext = getOrcReader o w key ext.
Proof. intros Hfmt. unfold GetManifestFileReader. by rewrite decide_True. Qed.

(** ** One download for a key whose entry gets ready *)

Lemma opened_reader_reads_local_file ext f key :
  reads_local_file f (opened_reader ext f key).
Proof.
  unfold reads_local_file, opened_reader.
  destruct (orc_Open_result ext); simpl; [done|]. by intros r [= <-].
Qed.

(** C4, the claim as stated fails after a failed download: the first
    request stores the entry of its key before it downloads, the download
    fails and the entry stays, not ready; the second request for the key
    finds the entry and downloads again, so the key was downloaded twice
    while its entry existed, and the temporary file of the first attempt is
    still on the disk. *)
Lemma failed_download_is_retried :
  ∃ o1 w1 file o2 w2 res,
    GetManifestFileReader scenario_factory scenario_world "inventory.orc"
      (collaborators (inr "/tmp/a") (Some (external_error "context canceled"))
         (inr scenario_file))
    = (o1, w1, (None, Some (external_error "context canceled"))) ∧
    orcFilesByKey o1 !! "inventory.orc" = Some file ∧
    download_calls "inventory.orc" (trace w1) = 1 ∧
    GetManifestFileReader o1 w1 "inventory.orc"
      (collaborators (inr "/tmp/b") None (inr scenario_file)) = (o2, w2, res) ∧
    download_calls "inventory.orc" (trace w2) = 2 ∧
    opened (trace w2) = ["/tmp/b"] ∧
    "/tmp/a" ∈ disk w2.
Proof.
  eexists _, _, _, _, _, _.
  split; [reflexivity|]. split; [reflexivity|]. split; [reflexivity|].
  split; [reflexivity|]. split; [reflexivity|]. split; [reflexivity|].
  simpl. set_solver.
Qed.

(** C4, amended. In a reachable state of the ORC factory no two cache
    entries carry the same key. While the entry of a key is ready, any
    number of requests for the key in a row download nothing: the entry
    stays ready with the same local file, every request opens that file and
    every reader returned reads it. When the key has no entry, or one that
    is not ready, and the download of the first request succeeds, any
    number of requests in a row download the key exactly once: the entry is
    ready with the downloaded file, every request opens that file and every
    reader returned reads it. *)
Theorem one_download_once_entry_is_ready o w key exts :
  reachable o w → Format (manifest o) = "ORC" →
  (∀ k1 k2 file1 file2,
     orcFilesByKey o !! k1 = Some file1 → orcFilesByKey o !! k2 = Some file2 →
     orcFile.key file1 = orcFile.key file2 → k1 = k2) ∧
  (∀ file,
     orcFilesByKey o !! key = Some file → orcFile.ready file = true →
     ∃ o' w' results file',
       requests o w key exts = (o', w', results) ∧
       orcFilesByKey o' !! key = Some file' ∧
       orcFile.ready file' = true ∧
       orcFile.localFilename file' = orcFile.localFilename file ∧
       download_calls key (trace w') = download_calls key (trace w) ∧
       opened (trace w')
       = opened (trace w) ++ replicate (length exts) (orcFile.localFilename file) ∧
       Forall (reads_local_file (orcFile.localFilename file)) results) ∧
  (∀ ext f,
     orcFile.ready (entry_for o key) = false →
     TempFile_result ext = inr f → DownloadWithContext_result ext = None →
     ∃ o' w' results file',
       requests o w key (ext :: exts) = (o', w', results) ∧
       orcFilesByKey o' !! key = Some file' ∧
       orcFile.ready file' = true ∧ orcFile.localFilename file' = f ∧
       download_calls key (trace w') = S (download_calls key (trace w)) ∧
       opened (trace w') = opened (trace w) ++ replicate (S (length exts)) f ∧
       Forall (reads_local_file f) results).
Proof.
  intros Hreach Hfmt. split; [|split].
  - intros k1 k2 file1 file2. by apply (reachable_one_entry_per_key o w).
  - intros file Hl Hready. by apply requests_ready.
  - intros ext f Hready Ht Hd. cbn [requests].
    rewrite ORC_request by done.
    rewrite (getOrcReader_when_downloaded o w key ext f) by done.
    set (file1 := orcFile.mk _ _ f true).
    set (w1 := {| disk := disk w ∪ {[f]}; trace := _ |}).
    destruct (requests_ready key exts (store o key file1) w1 file1)
      as (o' & w' & results & file' & Hreq & Hl' & Hready' & Hname' & Hdl & Hop & Hall).
    { done. }
    { apply store_lookup. }
    { done. }
    rewrite Hreq. exists o', w', (opened_reader ext f key :: results), file'.
    split; [done|]. split; [done|]. split; [done|]. split; [done|]. split.
    { rewrite Hdl. subst w1. simpl. rewrite download_calls_app. simpl.
      rewrite decide_True by done. lia. }
    split.
    { rewrite Hop. subst w1 file1. simpl. rewrite opened_app. simpl.
      rewrite <- app_assoc. done. }
    constructor; [apply opened_reader_reads_local_file|done].
Qed.

Lemma one_download_once_entry_is_ready_witness :
  ∃ o' w' results,
    requests scenario_factory scenario_world "inventory.orc"
      [answers None None None; answers None None None; answers None None None]
      = (o', w', results) ∧
    download_calls "inventory.orc" (trace w') = 1 ∧
    opened (trace w') = replicate 3 "/tmp/inventory.orc".
Proof.
  destruct (one_download_once_entry_is_ready scenario_factory scenario_world
              "inventory.orc" [answers None None None; answers None None None])
    as (_ & _ & Hnew).
  - apply reachable_new.
  - reflexivity.
  - destruct (Hnew (answers None None None) "/tmp/inventory.orc")
      as (o' & w' & results & file & Hreq & _ & _ & _ & Hdl & Hop & _).
    + reflexivity.
    + reflexivity.
    + reflexivity.
    + exists o', w', results. split; [exact Hreq|]. split; [exact Hdl|exact Hop].
Defined.

(** ** Keys the manifest does not list *)



(** ** Failures after the temporary file was created *)

(** X15. When the download succeeds but the local file cannot be opened, the
    request returns the error of [orc.Open] and no reader; the entry stays
    ready with the downloaded file, which stays on the disk, so the next
    request for the key opens that file again without a download. *)
Theorem open_failure_keeps_downloaded_file o w key ext f err :
  Format (manifest o) = "ORC" →
  orcFile.ready (entry_for o key) = false →
  TempFile_result ext = inr f → DownloadWithContext_result ext = None →
  orc_Open_result ext = inl err →
  ∃ o' w' file',
    GetManifestFileReader o w key ext = (o', w', (None, Some err)) ∧
    orcFilesByKey o' !! key = Some file' ∧
    orcFile.ready file' = true ∧ orcFile.localFilename file' = f ∧
    f ∈ disk w' ∧
    ∀ ext2, ∃ o'',
      GetManifestFileReader o' w' key ext2
      = (o'', emit (orc_Open f) w', opened_reader ext2 f key).
Proof.
  intros Hfmt Hready Ht Hd Hopen. rewrite ORC_request by done.
  rewrite (getOrcReader_when_downloaded o w key ext f) by done.
  unfold opened_reader at 1. rewrite Hopen.
  eexists _, _, _. split; [reflexivity|]. split; [apply store_lookup|].
  split; [done|]. split; [done|]. split; [simpl; set_solver|].
  intros ext2. rewrite ORC_request by done.
  rewrite getOrcReader_when_ready by (by rewrite entry_for_store).
  rewrite entry_for_store. simpl. by eexists.
Qed.

Lemma open_failure_keeps_downloaded_file_witness :
  ∃ o' w' file',
    GetManifestFileReader scenario_factory scenario_world "inventory.orc"
      (collaborators (inr "/tmp/inventory.orc") None (inl (external_error "malformed ORC file")))
    = (o', w', (None, Some (external_error "malformed ORC file"))) ∧
    orcFilesByKey o' !! "inventory.orc" = Some file' ∧
    orcFile.ready file' = true ∧ "/tmp/inventory.orc" ∈ disk w'.
Proof.
  destruct (open_failure_keeps_downloaded_file scenario_factory scenario_world
              "inventory.orc"
              (collaborators (inr "/tmp/inventory.orc") None
                 (inl (external_error "malformed ORC file")))
              "/tmp/inventory.orc" (external_error "malformed ORC file"))
    as (o' & w' & file' & Hget & Hl & Hready & _ & Hdisk & _).
  - reflexivity.
  - reflexivity.
  - reflexivity.
  - reflexivity.
  - reflexivity.
  - exists o', w', file'. repeat split; [exact Hget|exact Hl|exact Hready|exact Hdisk].
Defined.

(** X16. When the temporary file was created and the download into it
    fails, the request returns the error of the download; the temporary
    file stays on the disk, no [os.Remove] is called, and the entry of the
    key is not ready and records the local file name it had before, not the
    temporary file. *)
Theorem download_failure_leaves_temporary_file o w key ext f err :
  Format (manifest o) = "ORC" →
  orcFile.ready (entry_for o key) = false →
  TempFile_result ext = inr f → DownloadWithContext_result ext = Some err →
  ∃ o' w' file',
    GetManifestFileReader o w key ext = (o', w', (None, Some err)) ∧
    f ∈ disk w' ∧
    trace w' = trace w ++ [ioutil_TempFile key;
                           DownloadWithContext (inventoryBucket (manifest o)) key f] ∧
    orcFilesByKey o' !! key = Some file' ∧
    orcFile.ready file' = false ∧
    orcFile.localFilename file' = orcFile.localFilename (entry_for o key).
Proof.
  intros Hfmt Hready Ht Hd. rewrite ORC_request by done.
  rewrite (getOrcReader_when_download_fails o w key ext f err) by done.
  eexists _, _, _. split; [reflexivity|]. split; [simpl; set_solver|].
  split; [done|]. split; [apply store_lookup|]. done.
Qed.

Lemma download_failure_leaves_temporary_file_witness :
  ∃ o' w' file',
    GetManifestFileReader scenario_factory scenario_world "inventory.orc"
      (answers (Some (external_error "context canceled")) None None)
    = (o', w', (None, Some (external_error "context canceled"))) ∧
    "/tmp/inventory.orc" ∈ disk w' ∧
    orcFilesByKey o' !! "inventory.orc" = Some file' ∧
    orcFile.localFilename file' = "".
Proof.
  destruct (download_failure_leaves_temporary_file scenario_factory scenario_world
              "inventory.orc" (answers (Some (external_error "context canceled")) None None)
              "/tmp/inventory.orc" (external_error "context canceled"))
    as (o' & w' & file' & Hget & Hdisk & _ & Hl & _ & Hname).
  - reflexivity.
  - reflexivity.
  - reflexivity.
  - reflexivity.
  - exists o', w', file'. repeat split; [exact Hget|exact Hdisk|exact Hl|exact Hname].
Defined.

(** ** Requests and closes together *)



(** X18. Two ORC requests in a row for a key without an entry, the download
    and both openings succeeding, return two readers of the one local file.
    Closing the first removes the entry and the file; closing the second
    then panics, the entry of its key being gone. *)
Theorem Close_of_second_reader_panics o w key ext1 ext2 ext3 ext4 f data1 data2 :
  Format (manifest o) = "ORC" →
  orcFilesByKey o !! key = None →
  TempFile_result ext1 = inr f → DownloadWithContext_result ext1 = None →
  orc_Open_result ext1 = inr data1 → orc_Open_result ext2 = inr data2 →
  ∃ o1 w1 r1 o2 w2 r2 o3 w3,
    GetManifestFileReader o w key ext1 = (o1, w1, (Some (OrcManifestFileReaderOf r1), None)) ∧
    GetManifestFileReader o1 w1 key ext2 = (o2, w2, (Some (OrcManifestFileReaderOf r2), None)) ∧
    orc.name (OrcManifestFileReader.reader r1) = f ∧
    orc.name (OrcManifestFileReader.reader r2) = f ∧
    download_calls key (trace w2) = S (download_calls key (trace w)) ∧
    OrcManifestFileReader_Close o2 w2 r1 ext3 = Returned (o3, w3, None) ∧
    (f ∉ disk w3) ∧
    OrcManifestFileReader_Close o3 w3 r2 ext4
    = Panicked "invalid memory address or nil pointer dereference".
Proof.
  intros Hfmt Hl Ht Hd Hopen1 Hopen2.
  pose proof (entry_for_None o key Hl) as Hentry.
  eexists _, _, _, _, _, _, _, _.
  split.
  { rewrite ORC_request by done.
    rewrite (getOrcReader_when_downloaded o w key ext1 f) by (by rewrite ?Hentry).
    unfold opened_reader. rewrite Hopen1. reflexivity. }
  split.
  { rewrite ORC_request by done.
    rewrite getOrcReader_when_ready by (by rewrite entry_for_store).
    rewrite entry_for_store. unfold opened_reader. rewrite Hopen2. reflexivity. }
  split; [done|]. split; [done|]. split.
  { unfold emit. simpl. rewrite !download_calls_app. simpl.
    rewrite decide_True by done. lia. }
  split.
  { erewrite Close_with_entry; [reflexivity|].
    cbn [OrcManifestFileReader.key]. apply store_lookup. }
  split.
  { simpl. rewrite entry_for_store. simpl.
    intros [_ Hnot]%elem_of_difference. apply Hnot. by apply elem_of_singleton. }
  apply Close_without_entry_panics. cbn [OrcManifestFileReader.key orcFilesByKey].
  apply lookup_delete_eq.
Qed.

Lemma Close_of_second_reader_panics_witness :
  ∃ o1 w1 r1 o2 w2 r2 o3 w3,
    GetManifestFileReader scenario_factory scenario_world "inventory.orc"
      (answers None None None) = (o1, w1, (Some (OrcManifestFileReaderOf r1), None)) ∧
    GetManifestFileReader o1 w1 "inventory.orc"
      (answers None None None) = (o2, w2, (Some (OrcManifestFileReaderOf r2), None)) ∧
    OrcManifestFileReader_Close o2 w2 r1 (answers None None None) = Returned (o3, w3, None) ∧
    OrcManifestFileReader_Close o3 w3 r2 (answers None None None)
    = Panicked "invalid memory address or nil pointer dereference".
Proof.
  destruct (Close_of_second_reader_panics scenario_factory scenario_world "inventory.orc"
              (answers None None None) (answers None None None)
              (answers None None None) (answers None None None)
              "/tmp/inventory.orc" scenario_file scenario_file)
    as (o1 & w1 & r1 & o2 & w2 & r2 & o3 & w3 & H1 & H2 & _ & _ & _ & H3 & _ & H4).
  - reflexivity.
  - reflexivity.
  - reflexivity.
  - reflexivity.
  - reflexivity.
  - reflexivity.
  - exists o1, w1, r1, o2, w2, r2, o3, w3.
    split; [exact H1|]. split; [exact H2|]. split; [exact H3|exact H4].
Defined.

(** ** The reader of an ORC request *)

(** X19. The reader an ORC request returns is an ORC reader bound to the key
    requested, on the file [orc.Open] gave for the local file of the key's
    cache entry, which is ready; its cursor stands before the first stripe,
    with every record of the file pending. *)
Theorem ORC_request_returns_new_reader o w key ext rd :
  Format (manifest o) = "ORC" →
  (GetManifestFileReader o w key ext).2.1 = Some rd →
  ∃ r file',
    rd = OrcManifestFileReaderOf r ∧
    OrcManifestFileReader.key r = key ∧
    orc_Open_result ext = inr (orc.file (OrcManifestFileReader.reader r)) ∧
    omfr_c r = orc.Select (OrcManifestFileReader.reader r) ∧
    orc.pending (omfr_c r) = orc.rows (orc.file (OrcManifestFileReader.reader r)) ∧
    orcFilesByKey (GetManifestFileReader o w key ext).1.1 !! key = Some file' ∧
    orcFile.ready file' = true ∧
    orc.name (OrcManifestFileReader.reader r) = orcFile.localFilename file'.
Proof.
  intros Hfmt. rewrite ORC_request by done.
  getOrcReader_cases; simpl; try done; intros [= <-];
    eexists _, _; (split; [reflexivity|]); simpl;
    (split; [done|]); (split; [done|]); (split; [done|]); (split; [done|]);
    (split; [apply lookup_insert_eq|]); done.
Qed.

Lemma ORC_request_returns_new_reader_witness :
  ∃ r,
    (GetManifestFileReader scenario_factory scenario_world "inventory.orc"
       (answers None None None)).2.1 = Some (OrcManifestFileReaderOf r) ∧
    orc.pending (omfr_c r) = scenario_row <$> [1; 2; 3; 4; 5]%Z.
Proof.
  destruct (ORC_request_returns_new_reader scenario_factory scenario_world "inventory.orc"
              (answers None None None)
              (OrcManifestFileReaderOf
                 (OrcManifestFileReader.mk
                    {| orc.name := "/tmp/inventory.orc"; orc.file := scenario_file |}
                    (orc.Select {| orc.name := "/tmp/inventory.orc"; orc.file := scenario_file |})
                    "inventory.orc")))
    as (r & file' & Hrd & _ & Hopen & _ & Hp & _).
  - reflexivity.
  - reflexivity.
  - exists r. split; [rewrite <- Hrd; reflexivity|].
    rewrite Hp. injection Hopen as <-. reflexivity.
Defined.

(** X20. A new reader of a file whose metadata counts its records, read
    into a slice of [GetNumRows] elements, returns every record of the file
    in file order in one call, the stripes being not empty and the records
    convertible; nothing is pending afterwards. *)
Theorem Read_whole_file (r : OrcManifestFileReader.t) (dst objs : list InventoryObject) :
  let f := orc.file (OrcManifestFileReader.reader r) in
  omfr_c r = orc.Select (OrcManifestFileReader.reader r) →
  orc.consistent f →
  Forall (λ s : list orc.RowData, s ≠ []) (orc.stripes f) →
  decoded (orc.rows f) objs →
  (0 < orc.numberOfRows f < 2 ^ 63)%Z →
  length dst = Z.to_nat (GetNumRows r) →
  ∃ r', Read r dst = Some (Returned (r', objs, None)) ∧
        orc.pending (omfr_c r') = [].
Proof.
  intros f Hc Hcons Hne Hdec Hrange Hlen.
  assert (Hp : orc.pending (omfr_c r) = orc.rows f) by (by rewrite Hc).
  assert (Hn : length dst = length (orc.rows f)).
  { rewrite Hlen. unfold GetNumRows, orc.NumRows. fold f.
    rewrite wrap64_small by lia. rewrite Hcons. lia. }
  destruct (Read_fill r dst objs) as (r' & Hr & Hp' & _).
  - by rewrite Hc.
  - rewrite Hp, Hn. unfold orc.consistent in Hcons. lia.
  - rewrite Hp, Hn, take_ge by lia. done.
  - exists r'. split; [done|]. rewrite Hp', Hp, Hn. by rewrite drop_all.
Qed.

Lemma Read_whole_file_witness :
  ∃ r', Read scenario_reader (replicate 5 zero_object)
          = Some (Returned (r', scenario_object <$> [1; 2; 3; 4; 5]%Z, None)) ∧
        orc.pending (omfr_c r') = [].
Proof.
  destruct (Read_whole_file scenario_reader (replicate 5 zero_object)
              (scenario_object <$> [1; 2; 3; 4; 5]%Z)) as (r' & Hr & Hp).
  - reflexivity.
  - reflexivity.
  - repeat constructor; discriminate.
  - repeat constructor.
  - simpl. lia.
  - reflexivity.
  - exists r'. split; [exact Hr|exact Hp].
Defined.

(** ** Ready entries *)

(** A ready entry after [getOrcReader] was ready before with the same local
    file, or its file was the target of a download during the call. *)
Lemma getOrcReader_ready_entry o w key ext file' :
  orcFilesByKey (getOrcReader o w key ext).1.1 !! key = Some file' →
  orcFile.ready file' = true →
  (orcFile.ready (entry_for o key) = true ∧
   orcFile.localFilename file' = orcFile.localFilename (entry_for o key)) ∨
  DownloadWithContext (inventoryBucket (manifest o)) key (orcFile.localFilename file')
    ∈ trace (getOrcReader o w key ext).1.2.
Proof.
  destruct (orcFile.ready (entry_for o key)) eqn:Hready.
  - rewrite getOrcReader_when_ready by done. simpl. rewrite lookup_insert_eq.
    intros [= <-] _. left. done.
  - destruct (TempFile_result ext) as [e|f] eqn:Ht.
    + revert Hready. getOrcReader_cases; simpl; rewrite lookup_insert_eq;
        intros ? [= <-]; simpl in *; congruence.
    + destruct (DownloadWithContext_result ext) as [e|] eqn:Hd.
      * rewrite (getOrcReader_when_download_fails o w key ext f e) by done.
        simpl. rewrite lookup_insert_eq. intros [= <-]. unfold scanned. simpl. congruence.
      * rewrite (getOrcReader_when_downloaded o w key ext f) by done.
        simpl. rewrite lookup_insert_eq. intros [= <-] _. right. simpl.
        apply elem_of_app. right. set_solver.
Qed.

Lemma GetManifestFileReader_trace_grows o w key ext e :
  e ∈ trace w → e ∈ trace (GetManifestFileReader o w key ext).1.2.
Proof.
  intros He. unfold GetManifestFileReader. repeat case_decide.
  - destruct (getOrcReader_world o w key ext) as (added & _ & -> & _).
    apply elem_of_app. by left.
  - unfold getParquetReader. repeat case_match; simpl;
      repeat (apply elem_of_app; left); done.
  - done.
Qed.

Lemma GetManifestFileReader_manifest o w key ext :
  manifest (GetManifestFileReader o w key ext).1.1 = manifest o.
Proof.
  unfold GetManifestFileReader. repeat case_decide.
  - by destruct (getOrcReader_entry o w key ext) as (file' & -> & _).
  - by rewrite getParquetReader_factory.
  - done.
Qed.

(** X21. In every reachable state, a cache entry that is ready records a
    local file that was the target of a download of the entry's key from
    the inventory bucket: no entry is ever marked ready without its
    download. *)
Theorem ready_entries_were_downloaded o w k file :
  reachable o w →
  orcFilesByKey o !! k = Some file → orcFile.ready file = true →
  DownloadWithContext (inventoryBucket (manifest o)) k (orcFile.localFilename file)
    ∈ trace w.
Proof.
  intros Hreach. revert k file.
  induction Hreach as [m w|o w key ext o' w' res _ IH Hget|o w r ext o' w' err _ IH Hclose];
    intros k file Hl Hready.
  - simpl in Hl. by rewrite lookup_empty in Hl.
  - pose proof (GetManifestFileReader_manifest o w key ext) as Hm.
    pose proof (λ e, GetManifestFileReader_trace_grows o w key ext e) as Hgrow.
    rewrite Hget in Hm, Hgrow. simpl in Hm, Hgrow. rewrite Hm.
    revert Hget. unfold GetManifestFileReader. repeat case_decide.
    + intros Hget.
      destruct (getOrcReader_entry o w key ext) as (file' & Ho' & _).
      pose proof (getOrcReader_ready_entry o w key ext) as Hentry.
      rewrite Hget in Ho', Hentry. simpl in Ho', Hentry. subst o'.
      destruct (decide (k = key)) as [->|Hne].
      * destruct (Hentry file Hl Hready) as [[Hold Hname]|Hdl]; [|done].
        rewrite Hname. apply Hgrow. unfold entry_for in *.
        destruct (orcFilesByKey o !! key) as [old|] eqn:Hlo; [|done].
        by apply IH.
      * unfold store in Hl. simpl in Hl. rewrite lookup_insert_ne in Hl by done.
        apply Hgrow. by apply IH.
    + intros Hget. pose proof (getParquetReader_factory o w key ext) as Ho.
      rewrite Hget in Ho. simpl in Ho. subst o'. apply Hgrow. by apply IH.
    + intros [= <- <- <-]. by apply IH.
  - unfold OrcManifestFileReader_Close, clean in Hclose. simpl in Hclose.
    destruct (orcFilesByKey o !! OrcManifestFileReader.key r) as [old|]; [|done].
    injection Hclose as <- <- <-. simpl in *.
    apply lookup_delete_Some in Hl as [_ Hl].
    rewrite !elem_of_app. left. left. left. by apply IH.
Qed.

Lemma ready_entries_were_downloaded_witness :
  ∃ o' w' res,
    GetManifestFileReader scenario_factory scenario_world "inventory.orc"
      (answers None None None) = (o', w', res) ∧
    DownloadWithContext "inventory" "inventory.orc" "/tmp/inventory.orc" ∈ trace w'.
Proof.
  destruct (GetManifestFileReader scenario_factory scenario_world "inventory.orc"
              (answers None None None)) as [[o' w'] res] eqn:Hget.
  exists o', w', res. split; [reflexivity|].
  assert (Hreach : reachable o' w').
  { eapply reachable_get; [apply reachable_new|exact Hget]. }
  injection Hget as <- <- <-.
  apply (ready_entries_were_downloaded _ _ "inventory.orc"
           (orcFile.mk "inventory.orc" 0 "/tmp/inventory.orc" true) Hreach).
  - reflexivity.
  - reflexivity.
Defined.

(** ** More on batches and on the temporary file *)

(** X22. Reads one after the other, each into a new slice of a positive
    length, the lengths adding up to no more than the records pending,
    deliver the pending records piece by piece in file order: the slices
    put end to end are the first records pending, each slice is filled
    to its length, and the cursor has moved past exactly these records. *)
Theorem Read_in_full_batches (r : OrcManifestFileReader.t) (lengths : list nat)
    (objs : list InventoryObject) :
  stripes_nonempty (omfr_c r) → decoded (orc.pending (omfr_c r)) objs →
  Forall (λ n, 0 < n) lengths → sum_list lengths ≤ length objs →
  ∃ r' batches,
    Read_each r lengths = Some (r', batches) ∧
    concat batches = take (sum_list lengths) objs ∧
    length <$> batches = lengths ∧
    orc.pending (omfr_c r') = drop (sum_list lengths) (orc.pending (omfr_c r)).
Proof.
  intros Hne Hdec Hpos Hsum.
  destruct (Read_each_fill lengths r objs Hne Hdec Hpos Hsum)
    as (r' & batches & H1 & H2 & H3 & H4 & _).
  by exists r', batches.
Qed.

Lemma Read_in_full_batches_witness :
  ∃ r' batches,
    Read_each scenario_reader [2; 2; 1] = Some (r', batches) ∧
    concat batches = scenario_object <$> [1; 2; 3; 4; 5]%Z ∧
    orc.pending (omfr_c r') = [].
Proof.
  destruct (Read_in_full_batches scenario_reader [2; 2; 1]
              (scenario_object <$> [1; 2; 3; 4; 5]%Z))
    as (r' & batches & Heach & Hcat & _ & Hp).
  - repeat constructor; discriminate.
  - repeat constructor.
  - repeat constructor.
  - simpl. lia.
  - exists r', batches. split; [exact Heach|]. split; [exact Hcat|exact Hp].
Defined.

(** The entry is not ready and the temporary file cannot be created. *)
Lemma getOrcReader_when_TempFile_fails o w key ext err :
  orcFile.ready (entry_for o key) = false →
  TempFile_result ext = inl err →
  getOrcReader o w key ext
  = (store o key (scanned o key), emit (ioutil_TempFile key) w, (None, Some err)).
Proof.
  unfold getOrcReader, download, scanned, entry_for.
  intros Hready Ht. rewrite Ht.
  destruct (orcFilesByKey o !! key) as [[k i lf rd]|] eqn:Hl; cbn [default] in *;
    simpl in Hready; subst; rewrite ?manifest_store;
    (destruct (index_of key (Files (manifest o)) 0) as [idx|]; simpl;
     rewrite ?store_store; done).
Qed.

(** X23. When the temporary file cannot be created, the request returns
    that error without calling the download or [orc.Open]: the only call
    added to the trace is the one for the temporary file, and the disk is as
    it was. *)
Theorem TempFile_failure_skips_download o w key ext err :
  Format (manifest o) = "ORC" →
  orcFile.ready (entry_for o key) = false →
  TempFile_result ext = inl err →
  ∃ o' w',
    GetManifestFileReader o w key ext = (o', w', (None, Some err)) ∧
    disk w' = disk w ∧
    trace w' = trace w ++ [ioutil_TempFile key].
Proof.
  intros Hfmt Hready Ht. rewrite ORC_request by done.
  rewrite (getOrcReader_when_TempFile_fails o w key ext err) by done.
  by eexists _, _.
Qed.

Lemma TempFile_failure_skips_download_witness :
  ∃ o' w',
    GetManifestFileReader scenario_factory scenario_world "inventory.orc"
      (collaborators (inl (external_error "no space left on device")) None (inr scenario_file))
    = (o', w', (None, Some (external_error "no space left on device"))) ∧
    trace w' = [ioutil_TempFile "inventory.orc"].
Proof.
  destruct (TempFile_failure_skips_download scenario_factory scenario_world "inventory.orc"
              (collaborators (inl (external_error "no space left on device")) None
                 (inr scenario_file))
              (external_error "no space left on device"))
    as (o' & w' & Hget & _ & Htrace).
  - reflexivity.
  - reflexivity.
  - reflexivity.
  - exists o', w'. split; [exact Hget|exact Htrace].
Defined.

(** ** Readers that share a key *)

(** C6. [Close] finds what to clean up by the key of the reader, not by the
    reader. Two requests for one key return the readers [a1] and [a2] of the
    local file /tmp/a; [a1] is closed, which removes the entry and the
    file; a third request downloads the key again, to /tmp/b, and returns
    the reader [b]. [Close] of [a2] then removes the entry of [b] and calls
    [os.Remove] on /tmp/b, the file of [b], not on its own file /tmp/a;
    and [Close] of [b] panics, its entry being gone, so that [b] never
    cleans up. *)
Theorem Close_cleans_up_by_key_not_by_reader :
  ∃ o1 w1 a1 o2 w2 a2 o3 w3 o4 w4 b o5 w5,
    GetManifestFileReader scenario_factory scenario_world "inventory.orc"
      (collaborators (inr "/tmp/a") None (inr scenario_file))
    = (o1, w1, (Some (OrcManifestFileReaderOf a1), None)) ∧
    GetManifestFileReader o1 w1 "inventory.orc"
      (collaborators (inr "/tmp/a") None (inr scenario_file))
    = (o2, w2, (Some (OrcManifestFileReaderOf a2), None)) ∧
    orc.name (OrcManifestFileReader.reader a2) = "/tmp/a" ∧
    OrcManifestFileReader_Close o2 w2 a1 (answers None None None)
    = Returned (o3, w3, None) ∧
    GetManifestFileReader o3 w3 "inventory.orc"
      (collaborators (inr "/tmp/b") None (inr scenario_file))
    = (o4, w4, (Some (OrcManifestFileReaderOf b), None)) ∧
    orc.name (OrcManifestFileReader.reader b) = "/tmp/b" ∧
    ("/tmp/b" ∈ disk w4) ∧
    OrcManifestFileReader_Close o4 w4 a2 (answers None None None)
    = Returned (o5, w5, None) ∧
    trace w5 = trace w4 ++ [orc_Cursor_Close; orc_Reader_Close "/tmp/a";
                            os_Remove "/tmp/b"] ∧
    orcFilesByKey o5 !! "inventory.orc" = None ∧
    ("/tmp/b" ∉ disk w5) ∧
    OrcManifestFileReader_Close o5 w5 b (answers None None None)
    = Panicked "invalid memory address or nil pointer dereference".
Proof.
  eexists _, _, _, _, _, _, _, _, _, _, _, _, _.
  split; [reflexivity|]. split; [reflexivity|]. split; [reflexivity|].
  split; [reflexivity|]. split; [reflexivity|]. split; [reflexivity|].
  split; [simpl; apply elem_of_union; right; by apply elem_of_singleton|].
  split; [reflexivity|]. split; [reflexivity|]. split; [reflexivity|].
  split; [|reflexivity].
  simpl. intros [_ Hnot]%elem_of_difference. apply Hnot. by apply elem_of_singleton.
Qed.
